(** * library_converter: resolution, planning, execution and verification

    A shallow embedding of [library_converter.py] and the properties of its
    pipeline.  The script reads a spreadsheet of skipped audio files,
    resolves every path-like cell against a root folder, plans a
    conversion ([.m4a]/[.mp4] to [.flac]) or a repair (re-encode a broken
    [.flac]), runs the external transcoder, verifies the output and removes
    the original.

    Conventions of the model
    - strings are byte strings; [lower] and [strip] act on the ASCII range;
    - paths follow [pathlib.PurePosixPath] (Python 3.9 to 3.13): a root
      ([""], ["/"] or ["//"]) and a list of components;
    - the file system is a finite map from path strings (what [str(path)]
      hands to the operating system) to nodes; a file carries what the
      external tools report about it (the [ffprobe] JSON, whether a full
      decode succeeds) and whether [os.remove] fails on it;
    - the transcoder is a parameter: any function from a command line and
      a file system to an exit code and a new file system;
    - [Path.expanduser] is taken as the identity (no path starts with [~]);
    - console output and the progress display are not modelled; failures of
      the operating system other than [os.remove] (an unwritable log file, a
      vanished executable) are outside the model. *)

From Stdlib Require Import ZArith Floats Ascii.
From stdpp Require Import base option list gmap strings pretty.

Local Open Scope Z_scope.
Local Open Scope nat_scope.

(** ** Python results: a value, an uncaught exception, or a loop that is
    still running when the fuel of the model is spent. *)

Inductive exn := ValueError | IndexError.

Inductive result (A : Type) : Type :=
  | Ok (a : A)
  | Raise (e : exn)
  | OutOfFuel.
Arguments Ok {A} a.
Arguments Raise {A} e.
Arguments OutOfFuel {A}.

Global Instance result_ret : MRet result := fun A a => Ok a.

Global Instance result_bind : MBind result := fun A B k r =>
  match r with
  | Ok a => k a
  | Raise e => Raise e
  | OutOfFuel => OutOfFuel
  end.

(** ** Python [str] methods used by the script *)

Module PyStr.

Definition is_upper (c : ascii) : bool :=
  let n := nat_of_ascii c in (65 <=? n) && (n <=? 90).

Definition lower_ascii (c : ascii) : ascii :=
  if is_upper c then ascii_of_nat (nat_of_ascii c + 32) else c.

(** [s.lower()] *)
Fixpoint lower (s : string) : string :=
  match s with
  | EmptyString => EmptyString
  | String c r => String (lower_ascii c) (lower r)
  end.

(** [c.isspace()] on the ASCII range: TAB, LF, VT, FF, CR, FS, GS, RS, US
    and the space. *)
Definition is_space (c : ascii) : bool :=
  let n := nat_of_ascii c in
  ((9 <=? n) && (n <=? 13)) || ((28 <=? n) && (n <=? 32)).

Fixpoint lstrip (s : string) : string :=
  match s with
  | EmptyString => EmptyString
  | String c r => if is_space c then lstrip r else s
  end.

Fixpoint rstrip (s : string) : string :=
  match s with
  | EmptyString => EmptyString
  | String c r =>
      match rstrip r with
      | EmptyString => if is_space c then EmptyString else String c EmptyString
      | r' => String c r'
      end
  end.

(** [s.strip()] *)
Definition strip (s : string) : string := rstrip (lstrip s).

(** [s.endswith(suffix)] *)
Fixpoint endswith (s suffix : string) : bool :=
  if String.eqb s suffix then true
  else match s with
       | EmptyString => false
       | String _ r => endswith r suffix
       end.

(** [s.startswith(p)] *)
Fixpoint startswith (s p : string) : bool :=
  match p, s with
  | EmptyString, _ => true
  | String _ _, EmptyString => false
  | String a p', String b s' => Ascii.eqb a b && startswith s' p'
  end.

(** [k in s] *)
Fixpoint contains (k s : string) : bool :=
  if startswith s k then true
  else match s with
       | EmptyString => false
       | String _ r => contains k r
       end.

(** [sep.join(l)] *)
Fixpoint join (sep : string) (l : list string) : string :=
  match l with
  | [] => ""
  | [x] => x
  | x :: r => x +:+ sep +:+ join sep r
  end.

(** [s.split("/")] *)
Fixpoint split_slash (s : string) : list string :=
  match s with
  | EmptyString => [""]
  | String c r =>
      if Ascii.eqb c "/"%char then "" :: split_slash r
      else match split_slash r with
           | h :: t => String c h :: t
           | [] => [String c ""]
           end
  end.

(** [s.rfind(".")] as a split: the text before the last dot and the text
    from that dot on; [None] when [s] has no dot. *)
Fixpoint rsplit_dot (s : string) : option (string * string) :=
  match s with
  | EmptyString => None
  | String c r =>
      match rsplit_dot r with
      | Some (a, b) => Some (String c a, b)
      | None => if Ascii.eqb c "."%char then Some ("", s) else None
      end
  end.

Definition nonempty (s : string) : bool :=
  match s with EmptyString => false | _ => true end.

(** [s] does not start with white space *)
Definition head_ok (s : string) : Prop :=
  match s with
  | EmptyString => True
  | String c _ => is_space c = false
  end.

End PyStr.

(** ** [pathlib.PurePosixPath] *)

Module PurePath.
Import PyStr.

Record Path := mkPath { root : string; names : list string }.

Global Instance Path_eq_dec : EqDecision Path.
Proof. solve_decision. Defined.

(** The leading slashes of a path string: exactly two are kept, any other
    number collapses to one. *)
Definition splitroot (s : string) : string :=
  match s with
  | String "/"%char (String "/"%char (String "/"%char _)) => "/"
  | String "/"%char (String "/"%char _) => "//"
  | String "/"%char _ => "/"
  | _ => ""
  end.

Definition keep_part (x : string) : bool :=
  nonempty x && negb (String.eqb x ".").

(** [Path(s)] *)
Definition parse (s : string) : Path :=
  {| root := splitroot s; names := filter (fun x => keep_part x = true) (split_slash s) |}.

(** [str(p)] *)
Definition str (p : Path) : string :=
  match root p, names p with
  | EmptyString, [] => "."
  | r, l => r +:+ join "/" l
  end.

Definition is_absolute (p : Path) : bool := nonempty (root p).

(** [p / s] *)
Definition joinpath (p : Path) (s : string) : Path :=
  let q := parse s in
  if is_absolute q then q
  else {| root := root p; names := names p ++ names q |}.

(** [p.name] *)
Definition name (p : Path) : string := List.last (names p) "".

(** [p.suffix]: the text from the last dot of the name on, unless that dot
    is the first or the last character. *)
Definition suffix_of (nm : string) : string :=
  match rsplit_dot nm with
  | Some (a, b) =>
      if nonempty a && (1 <? String.length b) then b else ""
  | None => ""
  end.

Definition stem_of (nm : string) : string :=
  match rsplit_dot nm with
  | Some (a, b) =>
      if nonempty a && (1 <? String.length b) then a else nm
  | None => nm
  end.

Definition suffix (p : Path) : string := suffix_of (name p).
Definition stem (p : Path) : string := stem_of (name p).

(** [p.with_name(nm)]: [ValueError] when [p] has no name or [nm] is not a
    single path component. *)
Definition valid_name (nm : string) : bool :=
  nonempty nm && negb (contains "/" nm) && negb (String.eqb nm ".").

Definition with_name (p : Path) (nm : string) : result Path :=
  if negb (nonempty (name p)) then Raise ValueError
  else if negb (valid_name nm) then Raise ValueError
  else Ok {| root := root p; names := removelast (names p) ++ [nm] |}.

(** [p.with_suffix(sfx)] *)
Definition valid_suffix (sfx : string) : bool :=
  negb (contains "/" sfx)
  && (negb (nonempty sfx) || (startswith sfx "." && negb (String.eqb sfx "."))).

Definition with_suffix (p : Path) (sfx : string) : result Path :=
  if negb (valid_suffix sfx) then Raise ValueError
  else if negb (nonempty (name p)) then Raise ValueError
  else Ok {| root := root p;
             names := removelast (names p) ++ [stem p +:+ sfx] |}.

(** Every value that pathlib builds keeps its components free of the
    separator; the record allows more, so this is stated where needed. *)
Definition plain (x : string) : bool := negb (contains "/" x).
Definition wf_path (p : Path) : bool := forallb plain (names p).

(** The roots that pathlib produces *)
Definition root_ok (p : Path) : bool :=
  String.eqb (root p) "" || String.eqb (root p) "/" || String.eqb (root p) "//".

(** The text of [str(p)] before the final component *)
Definition dir_text (r : string) (l : list string) : string :=
  match l with
  | [] => r
  | _ :: _ => r +:+ join "/" l +:+ "/"
  end.

Definition parent_text (p : Path) : string :=
  dir_text (root p) (removelast (names p)).

(** [p.relative_to(q)] succeeds *)
Fixpoint is_prefix_of (l k : list string) : bool :=
  match l, k with
  | [], _ => true
  | x :: l', y :: k' => String.eqb x y && is_prefix_of l' k'
  | _ :: _, [] => false
  end.

Definition relative_to_ok (p q : Path) : bool :=
  String.eqb (root p) (root q) && is_prefix_of (names q) (names p).

End PurePath.

Export PurePath.

(** ** The file system and the external tools' view of a file *)

Module FS.

(** One entry of the [streams] array that [ffprobe] prints. *)
Record stream := { codec_type : option string }.

(** The [format] object: its [duration] key may be absent; when present,
    [float(...)] either yields a binary64 number or raises. *)
Inductive duration_field :=
  | DurAbsent
  | DurNotFloat
  | DurFloat (f : float).

(** The JSON object printed by [ffprobe -show_streams -show_format]; each
    of the two keys may be missing. *)
Record probe_info := {
  format : option duration_field;
  streams : option (list stream)
}.

Record content := {
  probe : option probe_info;   (* [None]: ffprobe exits non-zero *)
  decodes : bool;              (* a full decode pass exits with code 0 *)
  locked : bool                (* [os.remove] raises on this file *)
}.

Inductive node :=
  | Dir
  | File (c : content).

Abbreviation filesystem := (gmap string node).

(** [p.exists()], [p.is_file()], [p.is_dir()] *)
Definition exists_ (fs : filesystem) (p : Path) : bool :=
  match fs !! str p with Some _ => true | None => false end.

Definition is_file (fs : filesystem) (p : Path) : bool :=
  match fs !! str p with Some (File _) => true | _ => false end.

Definition is_dir (fs : filesystem) (p : Path) : bool :=
  match fs !! str p with Some Dir => true | _ => false end.

(** [os.remove(p)]: [None] stands for the exception raised on a missing
    path, a directory or a file that cannot be removed. *)
Definition os_remove (fs : filesystem) (p : Path) : option filesystem :=
  match fs !! str p with
  | Some (File c) => if locked c then None else Some (delete (str p) fs)
  | _ => None
  end.

(** [safe_remove]: the exception is caught and only a warning is printed. *)
Definition safe_remove (fs : filesystem) (p : Path) : filesystem :=
  match os_remove fs p with
  | Some fs' => fs'
  | None => fs
  end.

(** [ffprobe_json] *)
Definition ffprobe_json (fs : filesystem) (p : Path) : option probe_info :=
  match fs !! str p with
  | Some (File c) => probe c
  | _ => None
  end.

(** [ffmpeg_decode_test], first component *)
Definition ffmpeg_decode_test (fs : filesystem) (p : Path) : bool :=
  match fs !! str p with
  | Some (File c) => decodes c
  | _ => false
  end.

(** Truth value of the dictionary: an empty JSON object is falsy. *)
Definition info_truthy (i : probe_info) : bool :=
  match format i, streams i with
  | None, None => false
  | _, _ => true
  end.

(** [float(fmt.get("duration", "0"))] with the [except] branch *)
Definition duration_of (i : probe_info) : float :=
  match format i with
  | Some (DurFloat f) => f
  | Some DurNotFloat => 0%float
  | Some DurAbsent => 0%float
  | None => 0%float
  end.

Definition is_audio (st : stream) : bool :=
  match codec_type st with
  | Some t => String.eqb t "audio"
  | None => false
  end.

Definition has_audio_stream (i : probe_info) : bool :=
  existsb is_audio (default [] (streams i)).

(** [verify_audio_ok] *)
Definition verify_audio_ok (fs : filesystem) (p : Path) : bool :=
  match ffprobe_json fs p with
  | None => false
  | Some info =>
      if negb (info_truthy info) then false
      else has_audio_stream info && PrimFloat.ltb 0.5%float (duration_of info)
  end.

End FS.

Export FS.

(** ** Naming allocator *)

(** The candidate tried at counter [n]: [target.with_name(f"{stem} ({n}){suf}")] *)
Definition numbered_name (target : Path) (n : nat) : string :=
  stem target +:+ " (" +:+ pretty n +:+ ")" +:+ suffix target.

(** The path that [with_name] builds for counter [n] *)
Definition numbered_path (target : Path) (n : nat) : Path :=
  {| root := root target;
     names := removelast (names target) ++ [numbered_name target n] |}.

(** [p] has a final component *)
Definition has_name (p : Path) : bool :=
  PyStr.nonempty (name p) && plain (name p).

(** The [while True] loop, with the fuel of the model. *)
Fixpoint unique_loop (fuel : nat) (fs : filesystem) (target : Path) (n : nat)
  : result Path :=
  match fuel with
  | O => OutOfFuel
  | S fuel' =>
      cand ← with_name target (numbered_name target n);
      if negb (exists_ fs cand) then Ok cand
      else unique_loop fuel' fs target (S n)
  end.

(** [unique_target_path]; the loop is given one more round than the file
    system has entries, which is always enough ([unique_loop_enough]). *)
Definition unique_target_path (fs : filesystem) (target : Path) : result Path :=
  if negb (exists_ fs target) then Ok target
  else unique_loop (S (size fs)) fs target 2.

(** ** Constants *)

Definition MUSIC_EXTS : list string := [".flac"; ".m4a"; ".mp4"].
Definition M4A_EXTS : list string := [".m4a"; ".mp4"].
Definition FLAC_EXTS : list string := [".flac"].

Definition PATHLIKE_COL_KEYWORDS : list string :=
  ["path"; "file"; "location"; "filename"; "track file"; "file path";
   "source"; "fullpath"; "url"].

(** [x in S] for a set of strings *)
Definition mem (x : string) (l : list string) : bool := existsb (String.eqb x) l.

(** ** Report extractor *)

Module Report.
Import PyStr.

(** A sheet as pandas hands it over: the column labels and the rows of
    cells, already rendered by [str]; [None] is a missing value (NaN). *)
Record DataFrame := {
  columns : list string;
  cells : list (list (option string))
}.

(** [find_path_columns], as positions of the selected columns *)
Definition is_path_column (c : string) : bool :=
  let lc := lower (strip c) in
  existsb (fun k => contains k lc) PATHLIKE_COL_KEYWORDS.

Fixpoint find_path_columns_from (j : nat) (cols : list string) : list nat :=
  match cols with
  | [] => []
  | c :: r =>
      if is_path_column c then j :: find_path_columns_from (S j) r
      else find_path_columns_from (S j) r
  end.

Definition find_path_columns (df : DataFrame) : list nat :=
  find_path_columns_from 0 (columns df).

(** [looks_like_path] *)
Definition looks_like_path (s : string) : bool :=
  if String.length s <? 5 then false
  else
    let s2 := lower (strip s) in
    existsb (fun ext => endswith s2 ext) MUSIC_EXTS.

(** [df[col].dropna().astype(str).tolist()] *)
Definition column_values (df : DataFrame) (j : nat) : list string :=
  omap (fun row => mjoin (row !! j)) (cells df).

(** [df.astype(str).fillna("").values.ravel()]: row by row; a missing
    value has become the text [nan] before [fillna] runs. *)
Definition all_values (df : DataFrame) : list string :=
  default "nan" <$> concat (cells df).

(** Order-preserving removal of duplicates with a [seen] set *)
Fixpoint unique_in_order (seen : gset string) (l : list string) : list string :=
  match l with
  | [] => []
  | p :: r =>
      if bool_decide (p ∈ seen) then unique_in_order seen r
      else p :: unique_in_order ({[p]} ∪ seen) r
  end.

(** [extract_candidate_paths] *)
Definition extract_candidate_paths (df : DataFrame) : list string :=
  let from_columns :=
    List.flat_map
      (fun j => strip <$> List.filter looks_like_path (column_values df j))
      (find_path_columns df) in
  let paths :=
    match from_columns with
    | [] => List.filter looks_like_path (strip <$> all_values df)
    | _ => from_columns
    end in
  unique_in_order ∅ paths.

End Report.

Export Report.

(** ** Planning *)

(** [a.kind in {"convert_m4a", "repair_flac"}] *)
Definition is_known_kind (k : string) : bool := mem k ["convert_m4a"; "repair_flac"].

Record Action := {
  kind : string;            (* "convert_m4a" | "repair_flac" *)
  src : Path;
  dst : option Path;
  cmd : list string;
  note : string
}.

Definition build_ffmpeg_cmd_convert_to_flac (src dst : Path) : list string :=
  ["ffmpeg"; "-hide_banner"; "-nostdin"; "-y";
   "-i"; str src;
   "-map_metadata"; "0";
   "-c:a"; "flac"; "-compression_level"; "8";
   "-map"; "0:a:0";
   str dst].

(** The path that [src.with_suffix(".flac")] builds *)
Definition flac_sibling (p : Path) : Path :=
  {| root := root p; names := removelast (names p) ++ [stem p +:+ ".flac"] |}.

(** The two actions the planner can record *)
Definition convert_action (src d : Path) : Action :=
  {| kind := "convert_m4a"; src := src; dst := Some d;
     cmd := build_ffmpeg_cmd_convert_to_flac src d; note := "m4a→flac" |}.

Definition repair_action (src d : Path) : Action :=
  {| kind := "repair_flac"; src := src; dst := Some d;
     cmd := build_ffmpeg_cmd_convert_to_flac src d; note := "re-encode flac" |}.

(** The destination shared by both branches of the planner:
    [src.with_suffix(".flac")], then the allocator when that path exists. *)
Definition planned_destination (fs : filesystem) (src : Path) : result Path :=
  dst ← with_suffix src ".flac";
  if exists_ fs dst then unique_target_path fs dst else Ok dst.

(** [decide_actions_for_path] *)
Definition decide_actions_for_path (fs : filesystem) (src : Path) : result (list Action) :=
  let ext := PyStr.lower (suffix src) in
  if mem ext M4A_EXTS then
    dst ← planned_destination fs src;
    Ok [convert_action src dst]
  else if mem ext FLAC_EXTS then
    if ffmpeg_decode_test fs src then Ok []
    else
      dst ← planned_destination fs src;
      Ok [repair_action src dst]
  else Ok [].

(** The shape of an action the planner records: a known kind, a destination
    with a final component, and the command built for that destination. *)
Definition planned_ok (a : Action) : Prop :=
  is_known_kind (kind a) = true /\
  exists d, dst a = Some d /\ has_name d = true /\
            cmd a = build_ffmpeg_cmd_convert_to_flac (src a) d.

(** The source of an action the planner records: a path as pathlib builds
    it, with a recognized extension. *)
Definition planned_src (a : Action) : Prop :=
  wf_path (src a) = true /\ root_ok (src a) = true /\
  mem (PyStr.lower (suffix (src a))) MUSIC_EXTS = true.

(** The path of an audit log: it has a name, and its extension is not one
    of the recognized ones ([main] uses [.csv]). *)
Definition log_path_ok (p : Path) : Prop :=
  has_name p = true /\ root_ok p = true /\
  mem (PyStr.lower (suffix p)) MUSIC_EXTS = false.

Inductive row_status :=
  | NOT_FOUND
  | SKIP (ext : string)
  | OK_NO_FIX
  | PLAN (kinds : list string).


Record plan_row := {
  raw_text : string;
  resolved_path : option Path;
  status : row_status
}.

Section Resolver.

(** [Path.resolve()]: the absolute path with symbolic links followed, as
    the operating system reports it. *)
Variable realpath : Path -> Path.

(** [normalize_to_root] *)
Definition normalize_to_root (s : string) (root : Path) : Path :=
  let p := parse s in
  if negb (is_absolute p) then joinpath root s else p.

(** [is_under] *)
Definition is_under (child root : Path) : bool :=
  relative_to_ok (realpath child) (realpath root).

(** The two resolution routes of the loop body of [plan_from_xlsx] *)
Definition resolve_candidate (fs : filesystem) (root : Path) (raw : string)
  : option Path :=
  let p_try := normalize_to_root raw root in
  let resolved :=
    if exists_ fs p_try && is_file fs p_try && is_under p_try root
    then Some p_try else None in
  match resolved with
  | Some p => Some p
  | None =>
      let base := name (parse raw) in
      let p2 := joinpath root base in
      if exists_ fs p2 && is_file fs p2 then Some p2 else None
  end.

(** One round of the loop over the candidates *)
Definition plan_candidate (fs : filesystem) (root : Path) (raw : string)
  : result (plan_row * list Action) :=
  match resolve_candidate fs root raw with
  | None => Ok ({| raw_text := raw; resolved_path := None; status := NOT_FOUND |}, [])
  | Some resolved =>
      if negb (mem (PyStr.lower (suffix resolved)) MUSIC_EXTS) then
        Ok ({| raw_text := raw; resolved_path := Some resolved;
               status := SKIP (suffix resolved) |}, [])
      else
        acts ← decide_actions_for_path fs resolved;
        match acts with
        | [] => Ok ({| raw_text := raw; resolved_path := Some resolved;
                       status := OK_NO_FIX |}, [])
        | _ => Ok ({| raw_text := raw; resolved_path := Some resolved;
                      status := PLAN (kind <$> acts) |}, acts)
        end
  end.

Fixpoint plan_loop (fs : filesystem) (root : Path) (seen : gset string)
    (candidates : list string) : result (list plan_row * list Action) :=
  match candidates with
  | [] => Ok ([], [])
  | raw :: rest =>
      if bool_decide (raw ∈ seen) then plan_loop fs root seen rest
      else
        '(row, acts) ← plan_candidate fs root raw;
        '(rows, actions) ← plan_loop fs root ({[raw]} ∪ seen) rest;
        Ok (row :: rows, acts ++ actions)
  end.

(** [plan_from_xlsx], from the sheets that [read_all_sheets] returned *)
Definition plan_from_xlsx (fs : filesystem) (sheets : list DataFrame) (root : Path)
  : result (list plan_row * list Action) :=
  let candidates := List.flat_map extract_candidate_paths sheets in
  plan_loop fs root ∅ candidates.

End Resolver.

(** ** Execution *)

Inductive outcome := Preview | Success | Error | ErrorVerify.



(** The status column of the audit log *)
Definition status_token (o : outcome) : string :=
  match o with
  | Preview => "PREVIEW"
  | Success => "OK"
  | Error => "ERROR"
  | ErrorVerify => "ERROR: verify"
  end.

(** One row of the audit log: kind, source, destination, status, note *)
Record log_row := {
  row_kind : string;
  row_source : string;
  row_destination : string;
  row_outcome : outcome;
  row_note : string
}.

(** What the log file looks like to the external tools *)
Definition log_file : node :=
  File {| probe := None; decodes := false; locked := false |}.

(** The state threaded through [apply_actions]: the disk, the two counters,
    the rows written so far and, for each launch of the transcoder, its
    command line with the disk it was launched on. *)
Record state := {
  disk : filesystem;
  success : nat;
  error : nat;
  log : list log_row;
  launches : list (list string * filesystem)
}.

Definition dst_text (d : option Path) : string :=
  match d with Some p => str p | None => "" end.

Definition mk_row (a : Action) (d : option Path) (o : outcome) : log_row :=
  {| row_kind := kind a; row_source := str (src a);
     row_destination := dst_text d; row_outcome := o; row_note := note a |}.

Section Engine.

(** The external transcoder: from the command line and the disk at launch
    to the exit code and the disk at exit. *)
Variable ffmpeg : list string -> filesystem -> Z * filesystem.

(** [run_ffmpeg_with_progress]: the probe of the source and the parsing of
    the progress lines only feed the console; the value is the exit code of
    the process, and the disk is the one the process leaves. *)
Definition run_ffmpeg_with_progress (c : list string) (src : Path) (fs : filesystem)
  : Z * filesystem :=
  ffmpeg c fs.

(** [dst = unique_target_path(a.dst) if a.dst else None] *)
Definition final_destination (fs : filesystem) (a : Action) : result (option Path) :=
  match dst a with
  | Some d => d' ← unique_target_path fs d; Ok (Some d')
  | None => Ok None
  end.

(** The command actually run: the last argument is replaced when it is
    not the text of the final destination; [a.cmd[-1]] raises
    [IndexError] on an empty command. *)
Definition final_cmd (a : Action) (d : option Path) : result (list string) :=
  match d with
  | Some d =>
      match last (cmd a) with
      | None => Raise IndexError
      | Some l =>
          if negb (String.eqb (str d) l) then Ok (removelast (cmd a) ++ [str d])
          else Ok (cmd a)
      end
  | None => Ok (cmd a)
  end.

(** Removal of a partial output: [if dst and dst.exists(): safe_remove(dst)] *)
Definition remove_partial (fs : filesystem) (d : option Path) : filesystem :=
  match d with
  | Some p => if exists_ fs p then safe_remove fs p else fs
  | None => fs
  end.

(** [not dst or not dst.exists() or not verify_audio_ok(dst)] *)
Definition verification_fails (fs : filesystem) (d : option Path) : bool :=
  match d with
  | None => true
  | Some p => negb (exists_ fs p) || negb (verify_audio_ok fs p)
  end.

(** The body of the loop of [apply_actions] for one action of a known
    kind; returns the outcome written to the log and the next state. *)
Definition execute_action (preview : bool) (a : Action) (st : state)
  : result (outcome * state) :=
  d ← final_destination (disk st) a;
  if preview then
    Ok (Preview,
        {| disk := disk st; success := success st; error := error st;
           log := log st ++ [mk_row a d Preview]; launches := launches st |})
  else
    c ← final_cmd a d;
    let '(rc, fs1) := run_ffmpeg_with_progress c (src a) (disk st) in
    let launched := launches st ++ [(c, disk st)] in
    if negb (rc =? 0)%Z then
      Ok (Error,
          {| disk := remove_partial fs1 d; success := success st;
             error := S (error st);
             log := log st ++ [mk_row a d Error]; launches := launched |})
    else if verification_fails fs1 d then
      Ok (ErrorVerify,
          {| disk := remove_partial fs1 d; success := success st;
             error := S (error st);
             log := log st ++ [mk_row a d ErrorVerify]; launches := launched |})
    else
      Ok (Success,
          {| disk := safe_remove fs1 (src a); success := S (success st);
             error := error st;
             log := log st ++ [mk_row a d Success]; launches := launched |}).

Fixpoint apply_loop (preview : bool) (actions : list Action) (st : state)
  : result state :=
  match actions with
  | [] => Ok st
  | a :: rest =>
      if negb (is_known_kind (kind a)) then apply_loop preview rest st
      else
        '(_, st') ← execute_action preview a st;
        apply_loop preview rest st'
  end.

(** [apply_actions]: the log file is created (or truncated) first; the
    returned state carries the [(success, error)] pair. *)
Definition apply_actions (fs : filesystem) (actions : list Action)
    (log_csv : Path) (preview : bool) : result state :=
  apply_loop preview actions
    {| disk := <[str log_csv := log_file]> fs; success := 0; error := 0;
       log := []; launches := [] |}.

(** The assumption on the transcoder under which the disk can be reasoned
    about: a run touches no entry but the one named by its last argument. *)
Definition writes_only_output : Prop :=
  forall (c : list string) (fs : filesystem) (k : string),
    last c <> Some k -> (ffmpeg c fs).2 !! k = fs !! k.


(** ** Command line *)

Record arguments := {
  arg_xlsx : string;
  arg_root : string;
  arg_apply : bool
}.

(** [shutil.which] and the content pandas reads from a workbook ([None]:
    reading raises). *)
Variable which : string -> bool.
Variable read_workbook : Path -> option (list DataFrame).
Variable realpath : Path -> Path.

(** [require_tools]: [Some 2] stands for [sys.exit(2)] *)
Definition require_tools (tools : list string) : option Z :=
  match List.filter (fun t => negb (which t)) tools with
  | [] => None
  | _ :: _ => Some 2%Z
  end.

(** [read_all_sheets]: the sheets, or [sys.exit(1)] when reading raises *)
Definition read_all_sheets (xlsx : Path) : list DataFrame + Z :=
  match read_workbook xlsx with
  | Some sheets => inl sheets
  | None => inr 1%Z
  end.

(** How a run ends: the exit code, the plan when planning was reached,
    and the final state of the disk and counters. *)
Record run := {
  exit_code : Z;
  planned : option (list plan_row * list Action);
  final : state
}.

Definition idle (fs : filesystem) : state :=
  {| disk := fs; success := 0; error := 0; log := []; launches := [] |}.

(** [main]; [plan_from_xlsx] is handed the sheets that its first statement,
    [read_all_sheets], returns. *)
Definition main (args : arguments) (fs : filesystem) : result run :=
  match require_tools ["ffmpeg"; "ffprobe"] with
  | Some code => Ok {| exit_code := code; planned := None; final := idle fs |}
  | None =>
      let xlsx := parse (arg_xlsx args) in
      let root := parse (arg_root args) in
      if negb (exists_ fs xlsx) then
        Ok {| exit_code := 1; planned := None; final := idle fs |}
      else if negb (exists_ fs root) || negb (is_dir fs root) then
        Ok {| exit_code := 1; planned := None; final := idle fs |}
      else
        let preview := negb (arg_apply args) in
        let log_csv :=
          joinpath root (if preview then "fix_log_preview.csv" else "fix_log_apply.csv") in
        match read_all_sheets xlsx with
        | inr code => Ok {| exit_code := code; planned := None; final := idle fs |}
        | inl sheets =>
            '(found_rows, actions) ← plan_from_xlsx realpath fs sheets root;
            st ← apply_actions fs actions log_csv preview;
            Ok {| exit_code := 0; planned := Some (found_rows, actions); final := st |}
        end
  end.

End Engine.

(** ** Sample disks, actions and transcoders

    Concrete inputs on which the statements below are exercised. *)

Module Fixtures.

Definition audio_info (seconds : float) : probe_info :=
  {| format := Some (DurFloat seconds);
     streams := Some [ {| codec_type := Some "audio" |} ] |}.

(** A sound file of 12.5 seconds *)
Definition good_audio : content :=
  {| probe := Some (audio_info 12.5); decodes := true; locked := false |}.

(** The same file, held open by another program: [os.remove] raises *)
Definition locked_audio : content :=
  {| probe := Some (audio_info 12.5); decodes := true; locked := true |}.

(** A truncated output of a quarter of a second *)
Definition stub : content :=
  {| probe := Some (audio_info 0.25); decodes := false; locked := false |}.

Definition locked_stub : content :=
  {| probe := Some (audio_info 0.25); decodes := false; locked := true |}.

(** A flac file that does not decode *)
Definition broken_flac : content :=
  {| probe := Some (audio_info 12.5); decodes := false; locked := false |}.

Definition library : filesystem :=
  list_to_map [("/lib", Dir);
               ("/lib/report.xlsx", File stub);
               ("/lib/track.m4a", File good_audio);
               ("/lib/track.flac", File good_audio);
               ("/lib/old.flac", File broken_flac)].

(** The library with [track.m4a] held open *)
Definition library_locked : filesystem :=
  <["/lib/track.m4a" := File locked_audio]> library.


(** A library that holds a file named [.m4a] in a folder *)
Definition library_dotfile : filesystem :=
  <["/lib/a/.m4a" := File good_audio]> library.

(** Transcoders: one that writes a sound file and exits with 0, one that
    writes a truncated file and exits with 0, one that leaves a partial
    file and exits with 1, and one whose partial file cannot be removed. *)
Definition writes (c : content) (rc : Z) (cmd : list string) (fs : filesystem)
  : Z * filesystem :=
  match last cmd with
  | Some out => (rc, <[out := File c]> fs)
  | None => (1%Z, fs)
  end.

Definition encoder_ok := writes good_audio 0.
Definition encoder_truncates := writes stub 0.
Definition encoder_fails := writes stub 1.
Definition encoder_fails_locked := writes locked_stub 1.

Definition track_m4a : Path := parse "/lib/track.m4a".

(** The action the planner records for [track.m4a] on [library] *)
Definition convert_track : Action :=
  convert_action track_m4a (parse "/lib/track (2).flac").

Definition sheet : DataFrame :=
  {| columns := ["Title"; "File Path"];
     cells := [[Some "Song"; Some "Music/track.m4a"];
               [Some "Old"; Some " old.flac "];
               [None; Some "missing.mp4"]] |}.

Definition sheet_dotfile : DataFrame :=
  {| columns := ["path"]; cells := [[Some "a/.m4a"]] |}.

Definition all_tools (t : string) : bool := true.
Definition no_ffprobe (t : string) : bool := negb (String.eqb t "ffprobe").
Definition one_sheet (p : Path) : option (list DataFrame) := Some [sheet].
Definition same_path (p : Path) : Path := p.

Definition sample_args (apply : bool) : arguments :=
  {| arg_xlsx := "/lib/report.xlsx"; arg_root := "/lib"; arg_apply := apply |}.

Definition log_preview : Path := parse "/lib/fix_log_preview.csv".
Definition log_apply : Path := parse "/lib/fix_log_apply.csv".

End Fixtures.

(** ** Further parts of the script *)

(** The list [paths] of [extract_candidate_paths] before duplicates are
    removed: the path-like columns first, every cell when they yield
    nothing. *)
Definition gathered_paths (df : DataFrame) : list string :=
  let from_columns :=
    List.flat_map
      (fun j => PyStr.strip <$> List.filter looks_like_path (column_values df j))
      (find_path_columns df) in
  match from_columns with
  | [] => List.filter looks_like_path (PyStr.strip <$> all_values df)
  | _ => from_columns
  end.





(** Truth value of a float: false for [0.0] and [-0.0] only. *)
Definition float_truthy (f : float) : bool := negb (PrimFloat.eqb f 0%float).

(** [file_duration_sec]: [float(...) or None], [None] also when the
    conversion raises. *)
Definition file_duration_sec (fs : filesystem) (p : Path) : option float :=
  match ffprobe_json fs p with
  | None => None
  | Some info =>
      if negb (info_truthy info) then None
      else match format info with
           | Some (DurFloat f) => if float_truthy f then Some f else None
           | Some DurNotFloat => None
           | Some DurAbsent => None
           | None => None
           end
  end.

(** [min(a, b)] and [max(a, b)] of two floats, as Python compares them: the
    first argument stays unless the second is strictly smaller (greater). *)
Definition py_min (a b : float) : float := if PrimFloat.ltb b a then b else a.
Definition py_max (a b : float) : float := if PrimFloat.ltb a b then b else a.

(** The progress display of [run_ffmpeg_with_progress]:
    [duration = file_duration_sec(src) or 0.0], and for a line whose time
    stamp is [cur] seconds, under [if tmatch and duration > 0],
    [pct = max(0.0, min(100.0, (cur / duration) * 100.0))].  [cur] is [None]
    when the line holds no time stamp. *)
Definition known_duration (fs : filesystem) (src : Path) : float :=
  match file_duration_sec fs src with
  | Some f => if float_truthy f then f else 0%float
  | None => 0%float
  end.

Definition progress_percent (fs : filesystem) (src : Path) (cur : option float)
  : option float :=
  match cur with
  | Some c =>
      let duration := known_duration fs src in
      if PrimFloat.ltb 0%float duration
      then Some (py_max 0%float (py_min 100%float (c / duration * 100)%float))
      else None
  | None => None
  end.



(** ** More sample inputs *)

Module MoreFixtures.
Import Fixtures.

(** An action without a destination, as the class [Action] allows *)
Definition orphan_action : Action :=
  {| kind := "convert_m4a"; src := track_m4a; dst := None;
     cmd := ["ffmpeg"; "-i"; "/lib/track.m4a"; "/lib/out.flac"]; note := "" |}.

(** An action whose command is empty ([cmd or []] with [cmd = None]) *)
Definition empty_cmd_action : Action :=
  {| kind := "convert_m4a"; src := track_m4a;
     dst := Some (parse "/lib/track (2).flac"); cmd := []; note := "" |}.

(** An action of a kind the engine does not know *)
Definition foreign_action : Action :=
  {| kind := "delete"; src := track_m4a; dst := None; cmd := []; note := "" |}.

End MoreFixtures.

(** * Facts *)

#[local] Arguments Ascii.eqb : simpl never.
#[local] Arguments String.eqb : simpl never.

(** ** Sanity checks of the string and path model *)

Example parse_ex1 : parse "Music//a/./track.m4a" = mkPath "" ["Music"; "a"; "track.m4a"].
Proof. reflexivity. Qed.
Example parse_ex2 : str (joinpath (parse "/lib/") "x/y.flac") = "/lib/x/y.flac".
Proof. reflexivity. Qed.
Example suffix_ex1 : suffix (parse "/lib/a.b.M4A") = ".M4A" /\ stem (parse "/lib/a.b.M4A") = "a.b".
Proof. split; reflexivity. Qed.
Example suffix_ex2 : suffix (parse "/lib/.m4a") = "" /\ suffix (parse "x.") = "".
Proof. split; reflexivity. Qed.
Example strip_ex : PyStr.strip "  a b.flac " = "a b.flac".
Proof. reflexivity. Qed.

(** ** Results *)

Lemma bind_Ok {A B} (a : A) (k : A -> result B) : (Ok a ≫= k) = k a.
Proof. reflexivity. Qed.

(** ** Strings *)

Module StrFacts.
Import PyStr.

Lemma sapp_cons (x : ascii) (a b : string) : String x a +:+ b = String x (a +:+ b).
Proof. reflexivity. Qed.

Lemma sapp_nil_l (s : string) : "" +:+ s = s.
Proof. reflexivity. Qed.

Lemma sapp_nil_r (s : string) : s +:+ "" = s.
Proof. induction s as [|c s IH]; [done | by rewrite sapp_cons, IH]. Qed.

Lemma sapp_assoc (a b c : string) : (a +:+ b) +:+ c = a +:+ b +:+ c.
Proof. induction a as [|x a IH]; [done | by rewrite !sapp_cons, IH]. Qed.

Lemma sapp_length (a b : string) :
  String.length (a +:+ b) = String.length a + String.length b.
Proof.
  induction a as [|x a IH]; [done | rewrite sapp_cons; simpl; by rewrite IH].
Qed.

Lemma sapp_inj_r (a b t : string) : a +:+ t = b +:+ t -> a = b.
Proof.
  revert b. induction a as [|x a IH]; intros [|y b] H.
  - done.
  - apply (f_equal String.length) in H.
    rewrite sapp_nil_l, sapp_cons in H. simpl in H. rewrite sapp_length in H. lia.
  - apply (f_equal String.length) in H.
    rewrite sapp_nil_l, sapp_cons in H. simpl in H. rewrite sapp_length in H. lia.
  - rewrite !sapp_cons in H. injection H as -> H. f_equal. by apply IH.
Qed.

Lemma nonempty_true (s : string) : nonempty s = true <-> s <> "".
Proof. destruct s; simpl; split; congruence. Qed.

Lemma nonempty_app_r (a b : string) : nonempty b = true -> nonempty (a +:+ b) = true.
Proof. destruct a; [done | by rewrite sapp_cons]. Qed.

Lemma contains_slash_cons (c : ascii) (r : string) :
  contains "/" (String c r) = Ascii.eqb c "/" || contains "/" r.
Proof.
  simpl. rewrite Ascii.eqb_sym. by destruct (Ascii.eqb c "/"), r.
Qed.

Lemma plain_cons (c : ascii) (r : string) :
  plain (String c r) = negb (Ascii.eqb c "/") && plain r.
Proof. unfold plain. by rewrite contains_slash_cons, negb_orb. Qed.

Lemma plain_app (a b : string) : plain (a +:+ b) = plain a && plain b.
Proof.
  induction a as [|x a IH]; [done|].
  by rewrite sapp_cons, !plain_cons, IH, andb_assoc.
Qed.

Lemma rsplit_dot_app (s a b : string) : rsplit_dot s = Some (a, b) -> s = a +:+ b.
Proof.
  revert a b. induction s as [|c s IH]; intros a b; simpl; [done|].
  destruct (rsplit_dot s) as [[a' b']|].
  - intros [= <- <-]. by rewrite sapp_cons, <- (IH a' b').
  - destruct (Ascii.eqb c "."); [|done]. by intros [= <- <-].
Qed.

Lemma stem_suffix (nm : string) : nm = stem_of nm +:+ suffix_of nm.
Proof.
  unfold stem_of, suffix_of. destruct (rsplit_dot nm) as [[a b]|] eqn:E.
  - destruct (_ && _); [by apply rsplit_dot_app | by rewrite sapp_nil_r].
  - by rewrite sapp_nil_r.
Qed.

Lemma plain_stem_suffix (nm : string) :
  plain nm = true -> plain (stem_of nm) = true /\ plain (suffix_of nm) = true.
Proof.
  intros H. rewrite (stem_suffix nm), plain_app in H. by apply andb_true_iff in H.
Qed.

(** Decimal numerals have no separator. *)
Lemma plain_pretty_N_go (x : N) (s : string) :
  plain s = true -> plain (pretty_N_go x s) = true.
Proof.
  revert s. induction (N.lt_wf_0 x) as [x _ IH]; intros s Hs.
  destruct (decide (x = 0)%N) as [->|Hx]; [by rewrite pretty_N_go_0|].
  rewrite pretty_N_go_step by lia. apply IH.
  - apply N.div_lt; lia.
  - rewrite plain_cons, Hs, andb_true_r.
    unfold pretty_N_char. by repeat case_match.
Qed.

Lemma plain_pretty (n : nat) : plain (pretty n) = true.
Proof.
  unfold pretty, pretty_nat, pretty, pretty_N.
  case_decide; [done|]. by apply plain_pretty_N_go.
Qed.

End StrFacts.

(** ** Paths *)

Module PathFacts.
Import PyStr StrFacts.

Lemma join_snoc (l : list string) (x : string) :
  join "/" (l ++ [x]) = match l with [] => x | _ => join "/" l +:+ "/" +:+ x end.
Proof.
  induction l as [|a l IH]; [done|].
  destruct l as [|b l]; [done|].
  change (join "/" ((a :: b :: l) ++ [x]))
    with (a +:+ "/" +:+ join "/" ((b :: l) ++ [x])).
  rewrite IH.
  change (join "/" (a :: b :: l)) with (a +:+ "/" +:+ join "/" (b :: l)).
  by rewrite !sapp_assoc.
Qed.

Lemma str_names (r : string) (l : list string) :
  l <> [] -> str (mkPath r l) = r +:+ join "/" l.
Proof. unfold str; simpl. by destruct r, l. Qed.

Lemma str_snoc (r : string) (l : list string) (x : string) :
  str (mkPath r (l ++ [x])) = dir_text r l +:+ x.
Proof.
  rewrite str_names by (by destruct l). rewrite join_snoc. unfold dir_text.
  destruct l; by rewrite ?sapp_assoc.
Qed.

Lemma name_snoc (r : string) (l : list string) (x : string) :
  name (mkPath r (l ++ [x])) = x.
Proof. unfold name; simpl. by rewrite last_last. Qed.

Lemma names_split (p : Path) :
  name p <> "" -> names p = removelast (names p) ++ [name p].
Proof.
  unfold name. intros H. apply app_removelast_last.
  intros E. by rewrite E in H.
Qed.

(** [str(p)] is the text of the parent followed by the name. *)
Lemma str_parent_name (p : Path) :
  name p <> "" -> str p = parent_text p +:+ name p.
Proof.
  intros H. destruct p as [r l]. unfold parent_text. simpl.
  rewrite (names_split _ H) at 1. simpl. apply str_snoc.
Qed.

Lemma with_name_Ok (p : Path) (nm : string) (q : Path) :
  with_name p nm = Ok q ->
  q = mkPath (root p) (removelast (names p) ++ [nm]) /\ name p <> "".
Proof.
  unfold with_name. destruct (nonempty (name p)) eqn:E; [|done]. simpl.
  destruct (negb _); [done|]. intros [= <-]. split; [done|].
  by apply nonempty_true.
Qed.

Lemma with_name_valid (p : Path) (nm : string) :
  name p <> "" -> valid_name nm = true ->
  with_name p nm = Ok (mkPath (root p) (removelast (names p) ++ [nm])).
Proof.
  intros H1 H2. unfold with_name.
  apply nonempty_true in H1. by rewrite H1, H2.
Qed.

Lemma has_name_spec (p : Path) :
  has_name p = true <-> name p <> "" /\ plain (name p) = true.
Proof. unfold has_name. rewrite andb_true_iff, nonempty_true. tauto. Qed.

Lemma eqb_dot_long (s : string) : 1 < String.length s -> String.eqb s "." = false.
Proof.
  intros H. apply String.eqb_neq. intros ->. simpl in H. lia.
Qed.

Lemma numbered_name_valid (p : Path) (n : nat) :
  plain (name p) = true -> valid_name (numbered_name p n) = true.
Proof.
  intros H. apply plain_stem_suffix in H as [H1 H2].
  unfold valid_name, numbered_name. rewrite !andb_true_iff. split; [split|].
  - by apply nonempty_app_r.
  - fold (plain (stem p +:+ " (" +:+ pretty n +:+ ")" +:+ suffix p)).
    rewrite !plain_app. unfold stem, suffix.
    by rewrite H1, H2, plain_pretty.
  - rewrite eqb_dot_long; [done|]. rewrite !sapp_length. simpl. lia.
Qed.

Lemma with_name_numbered (p : Path) (n : nat) :
  has_name p = true -> with_name p (numbered_name p n) = Ok (numbered_path p n).
Proof.
  intros [H1 H2]%has_name_spec. rewrite with_name_valid; [done..|].
  by apply numbered_name_valid.
Qed.

Lemma numbered_name_inj (p : Path) : Inj (=) (=) (numbered_name p).
Proof.
  intros n m H. unfold numbered_name in H.
  do 2 apply (inj (String.app _)) in H.
  rewrite <- !(sapp_assoc (pretty _)) in H. do 2 apply sapp_inj_r in H.
  by apply (inj pretty) in H.
Qed.

Lemma str_numbered_path (p : Path) (n : nat) :
  str (numbered_path p n) = parent_text p +:+ numbered_name p n.
Proof. apply str_snoc. Qed.

Lemma str_numbered_inj (p : Path) : Inj (=) (=) (fun n => str (numbered_path p n)).
Proof.
  intros n m H. rewrite !str_numbered_path in H.
  apply (inj (String.app _)) in H. by apply numbered_name_inj in H.
Qed.

Lemma name_numbered_path (p : Path) (n : nat) :
  name (numbered_path p n) = numbered_name p n.
Proof. apply name_snoc. Qed.

End PathFacts.

(** ** The naming allocator *)

Module AllocatorFacts.
Import PyStr StrFacts PathFacts.

Implicit Types (fs : gmap string node) (p q : Path).

Lemma exists_true fs p : exists_ fs p = true <-> is_Some (fs !! str p).
Proof.
  unfold exists_. destruct (fs !! str p) as [v|]; split; by try intros [? ?].
Qed.

Lemma exists_false fs p : exists_ fs p = false <-> fs !! str p = None.
Proof. unfold exists_. by destruct (fs !! str p). Qed.

(** What the loop returns, when it returns. *)
Lemma unique_loop_Ok fuel fs p n q :
  has_name p = true ->
  unique_loop fuel fs p n = Ok q ->
  exists m, n <= m /\ q = numbered_path p m /\ exists_ fs q = false /\
    forall i, n <= i < m -> exists_ fs (numbered_path p i) = true.
Proof.
  intros Hp. revert n. induction fuel as [|fuel IH]; intros n; simpl; [done|].
  rewrite with_name_numbered by done. simpl.
  destruct (exists_ fs (numbered_path p n)) eqn:E; simpl.
  - intros (m & Hm & -> & Hfree & Hbusy)%IH.
    exists m. split; [lia|]. do 2 (split; [done|]).
    intros i Hi. destruct (decide (i = n)) as [->|]; [done|]. apply Hbusy. lia.
  - intros [= <-]. exists n. split; [lia|]. do 2 (split; [done|]). intros; lia.
Qed.

(** The loop does not raise on a path with a name. *)
Lemma unique_loop_no_raise fuel fs p n e :
  has_name p = true -> unique_loop fuel fs p n <> Raise e.
Proof.
  intros Hp. revert n. induction fuel as [|fuel IH]; intros n; simpl; [done|].
  rewrite with_name_numbered by done. simpl.
  destruct (exists_ fs (numbered_path p n)); simpl; [apply IH | done].
Qed.

(** When the fuel runs out, every candidate tried is on the disk. *)
Lemma unique_loop_spent fuel fs p n :
  has_name p = true ->
  unique_loop fuel fs p n = OutOfFuel ->
  forall i, n <= i < n + fuel -> exists_ fs (numbered_path p i) = true.
Proof.
  intros Hp. revert n. induction fuel as [|fuel IH]; intros n; simpl.
  - intros _ i Hi. lia.
  - rewrite with_name_numbered by done. simpl.
    destruct (exists_ fs (numbered_path p n)) eqn:E; simpl; [|done].
    intros H i Hi. destruct (decide (i = n)) as [->|]; [done|].
    apply (IH _ H). lia.
Qed.

(** Pigeonhole: a disk with [size fs] entries cannot hold [fuel] distinct
    candidates when [size fs < fuel]. *)
Lemma candidates_bounded fs p n fuel :
  (forall i, n <= i < n + fuel -> exists_ fs (numbered_path p i) = true) ->
  fuel <= size fs.
Proof.
  intros H.
  set (l := (fun i => str (numbered_path p i)) <$> seq n fuel).
  assert (NoDup l) as Hnd.
  { apply (@NoDup_fmap_2 _ _ _ (str_numbered_inj p)), NoDup_seq. }
  assert (l ⊆+ (map_to_list fs).*1) as Hsub.
  { apply NoDup_submseteq; [done|]. intros x [i [-> Hi]]%list_elem_of_fmap.
    apply elem_of_seq in Hi.
    destruct (proj1 (exists_true fs _) (H i Hi)) as [v Hv].
    apply list_elem_of_fmap. exists (str (numbered_path p i), v).
    split; [done|]. by apply elem_of_map_to_list. }
  apply submseteq_length in Hsub.
  rewrite length_fmap, length_map_to_list in Hsub.
  unfold l in Hsub. by rewrite length_fmap, length_seq in Hsub.
Qed.

(** Enough fuel: with more rounds than the disk has entries the loop
    returns. *)
Lemma unique_loop_enough fuel fs p n :
  has_name p = true -> size fs < fuel ->
  exists q, unique_loop fuel fs p n = Ok q.
Proof.
  intros Hp Hfuel. destruct (unique_loop fuel fs p n) as [q|e|] eqn:E.
  - by exists q.
  - by apply unique_loop_no_raise in E.
  - pose proof (unique_loop_spent _ _ _ _ Hp E) as Hall.
    pose proof (candidates_bounded fs p n fuel Hall). lia.
Qed.

(** More fuel does not change a result. *)
Lemma unique_loop_more_fuel fuel fuel' fs p n q :
  unique_loop fuel fs p n = Ok q -> fuel <= fuel' ->
  unique_loop fuel' fs p n = Ok q.
Proof.
  revert fuel' n. induction fuel as [|fuel IH]; intros fuel' n; simpl; [done|].
  intros H Hle. destruct fuel' as [|fuel']; [lia|]. simpl.
  destruct (with_name p (numbered_name p n)) as [c| |]; simpl in *; [|done..].
  destruct (negb (exists_ fs c)); [done|]. apply IH; [done | lia].
Qed.

(** Past [size fs] rounds the amount of fuel is irrelevant. *)
Lemma unique_loop_fuel_irrelevant fuel fuel' fs p n :
  has_name p = true -> size fs < fuel -> size fs < fuel' ->
  unique_loop fuel fs p n = unique_loop fuel' fs p n.
Proof.
  intros Hp H1 H2.
  destruct (unique_loop_enough fuel fs p n Hp H1) as [q Hq].
  destruct (unique_loop_enough fuel' fs p n Hp H2) as [q' Hq'].
  rewrite Hq, Hq'. f_equal.
  destruct (decide (fuel <= fuel')) as [Hle|Hgt].
  - pose proof (unique_loop_more_fuel _ _ _ _ _ _ Hq Hle). congruence.
  - assert (fuel' <= fuel) as Hle by lia.
    pose proof (unique_loop_more_fuel _ _ _ _ _ _ Hq' Hle). congruence.
Qed.

Lemma unique_target_path_absent fs p :
  exists_ fs p = false -> unique_target_path fs p = Ok p.
Proof. intros H. unfold unique_target_path. by rewrite H. Qed.

Lemma unique_target_path_present fs p :
  exists_ fs p = true -> has_name p = true ->
  exists N, 2 <= N /\ unique_target_path fs p = Ok (numbered_path p N) /\
    exists_ fs (numbered_path p N) = false /\
    forall i, 2 <= i < N -> exists_ fs (numbered_path p i) = true.
Proof.
  intros He Hp. unfold unique_target_path. rewrite He. cbn [negb].
  destruct (unique_loop_enough (S (size fs)) fs p 2 Hp) as [q Hq]; [lia|].
  destruct (unique_loop_Ok _ _ _ _ _ Hp Hq) as (m & Hm & -> & Hfree & Hbusy).
  exists m. by rewrite Hq.
Qed.

(** The allocator returns on every path that has a name when it exists,
    and what it returns is not on the disk. *)
Lemma unique_target_path_total fs p :
  (exists_ fs p = true -> has_name p = true) ->
  exists q, unique_target_path fs p = Ok q /\ exists_ fs q = false.
Proof.
  intros Hp. destruct (exists_ fs p) eqn:He.
  - destruct (unique_target_path_present fs p He (Hp eq_refl))
      as (N & _ & HN & Hfree & _). eauto.
  - exists p. by rewrite unique_target_path_absent.
Qed.

Lemma unique_target_path_fresh fs p q :
  (exists_ fs p = true -> has_name p = true) ->
  unique_target_path fs p = Ok q -> exists_ fs q = false.
Proof.
  intros Hp Hq. destruct (unique_target_path_total fs p Hp) as (q' & Hq' & Hf).
  congruence.
Qed.

End AllocatorFacts.

(** ** The planner *)

Module PlannerFacts.
Import PyStr StrFacts PathFacts AllocatorFacts.

Implicit Types (fs : gmap string node) (p q : Path).

Lemma split_slash_plain (s : string) : Forall (fun x => plain x = true) (split_slash s).
Proof.
  induction s as [|c s IH]; simpl; [by repeat constructor|].
  destruct (Ascii.eqb c "/") eqn:E; [by constructor|].
  destruct (split_slash s) as [|h t].
  - constructor; [|done]. by rewrite plain_cons, E.
  - inversion IH; subst. constructor; [|done].
    by rewrite plain_cons, E.
Qed.

Lemma wf_path_Forall p : wf_path p = true <-> Forall (fun x => plain x = true) (names p).
Proof.
  unfold wf_path. induction (names p) as [|x l IH]; simpl.
  - split; [constructor | done].
  - rewrite andb_true_iff, Forall_cons. tauto.
Qed.

Lemma parse_wf (s : string) : wf_path (parse s) = true.
Proof.
  apply wf_path_Forall. unfold parse; simpl.
  apply Forall_forall. intros x [_ Hx]%list_elem_of_filter.
  revert x Hx. apply Forall_forall, split_slash_plain.
Qed.

Lemma joinpath_wf p (s : string) : wf_path p = true -> wf_path (joinpath p s) = true.
Proof.
  intros Hp. unfold joinpath. destruct (is_absolute _); [apply parse_wf|].
  apply wf_path_Forall; simpl. apply Forall_app. split.
  - by apply wf_path_Forall.
  - exact (proj1 (wf_path_Forall _) (parse_wf s)).
Qed.

Lemma wf_plain_name p : wf_path p = true -> plain (name p) = true.
Proof.
  intros H%wf_path_Forall. unfold name.
  destruct (names p) as [|x l] using rev_ind; [done|].
  rewrite last_last. apply Forall_app in H as [_ H]. by inversion H.
Qed.

Lemma suffix_nonempty_name p : suffix p <> "" -> name p <> "".
Proof. unfold suffix. intros H E. by rewrite E in H. Qed.

Lemma mem_nonempty (x : string) (l : list string) :
  mem x l = true -> Forall (fun e => e <> "") l -> x <> "".
Proof.
  unfold mem. intros [e [He Hx]]%existsb_exists Hl.
  apply String.eqb_eq in Hx as ->. rewrite Forall_forall in Hl.
  apply Hl. by apply list_elem_of_In.
Qed.

Lemma lower_nonempty (s : string) : lower s <> "" -> s <> "".
Proof. by destruct s. Qed.

Lemma music_ext_name p : mem (lower (suffix p)) MUSIC_EXTS = true -> name p <> "".
Proof.
  intros H. apply suffix_nonempty_name, lower_nonempty.
  apply (mem_nonempty _ _ H). by repeat constructor.
Qed.

Lemma with_suffix_flac p : name p <> "" -> with_suffix p ".flac" = Ok (flac_sibling p).
Proof.
  intros H%nonempty_true. unfold with_suffix. by rewrite H.
Qed.

Lemma flac_sibling_has_name p : plain (name p) = true -> has_name (flac_sibling p) = true.
Proof.
  intros [H _]%plain_stem_suffix. unfold has_name, flac_sibling.
  rewrite name_snoc, plain_app. fold (stem p) in H. rewrite H.
  by rewrite nonempty_app_r.
Qed.

Lemma numbered_path_has_name p n : has_name p = true -> has_name (numbered_path p n) = true.
Proof.
  intros [_ H]%has_name_spec. apply (numbered_name_valid p n) in H.
  unfold valid_name in H. apply andb_true_iff in H as [[H1 H2]%andb_true_iff _].
  unfold has_name. rewrite name_numbered_path. by rewrite H1.
Qed.

Lemma unique_target_path_has_name fs p q :
  has_name p = true -> unique_target_path fs p = Ok q -> has_name q = true.
Proof.
  intros Hp Hq. destruct (exists_ fs p) eqn:He.
  - destruct (unique_target_path_present fs p He Hp) as (N & _ & HN & _).
    rewrite HN in Hq. injection Hq as <-. by apply numbered_path_has_name.
  - rewrite unique_target_path_absent in Hq by done. by injection Hq as <-.
Qed.

(** The guard [if dst.exists()] before the allocator changes nothing. *)
Lemma planned_destination_eq fs p :
  planned_destination fs p = (w ← with_suffix p ".flac"; unique_target_path fs w).
Proof.
  unfold planned_destination. destruct (with_suffix p ".flac") as [w| |]; simpl; [|done..].
  destruct (exists_ fs w) eqn:E; [done|]. by rewrite unique_target_path_absent.
Qed.

Lemma planned_destination_Ok fs p :
  name p <> "" -> plain (name p) = true ->
  exists d, planned_destination fs p = Ok d /\
            unique_target_path fs (flac_sibling p) = Ok d /\
            exists_ fs d = false /\ has_name d = true.
Proof.
  intros Hn Hp. rewrite planned_destination_eq, with_suffix_flac by done. simpl.
  pose proof (flac_sibling_has_name p Hp) as Hs.
  destruct (unique_target_path_total fs (flac_sibling p)) as (d & Hd & Hf); [done|].
  exists d. repeat split; try done. by apply (unique_target_path_has_name fs _ _ Hs).
Qed.

Lemma m4a_is_music (x : string) : mem x M4A_EXTS = true -> mem x MUSIC_EXTS = true.
Proof.
  unfold mem; simpl. destruct (String.eqb x ".m4a"), (String.eqb x ".mp4");
    simpl; try done; by rewrite ?orb_true_r.
Qed.

Lemma flac_is_music (x : string) : mem x FLAC_EXTS = true -> mem x MUSIC_EXTS = true.
Proof. unfold mem; simpl. by destruct (String.eqb x ".flac"). Qed.

Lemma flac_not_m4a (x : string) : mem x FLAC_EXTS = true -> mem x M4A_EXTS = false.
Proof.
  unfold mem; simpl. rewrite !orb_false_r. intros ->%String.eqb_eq. done.
Qed.

Lemma music_cases (x : string) :
  mem x MUSIC_EXTS = mem x M4A_EXTS || mem x FLAC_EXTS.
Proof.
  unfold mem; simpl. rewrite !orb_false_r.
  by destruct (String.eqb x ".flac"), (String.eqb x ".m4a"), (String.eqb x ".mp4").
Qed.

(** The planner on a lossy-container file *)
Lemma decide_m4a fs p :
  wf_path p = true -> mem (lower (suffix p)) M4A_EXTS = true ->
  exists d, unique_target_path fs (flac_sibling p) = Ok d /\
            exists_ fs d = false /\ has_name d = true /\
            decide_actions_for_path fs p = Ok [convert_action p d].
Proof.
  intros Hwf Hext. unfold decide_actions_for_path. rewrite Hext.
  destruct (planned_destination_Ok fs p) as (d & Hd & Hu & Hf & Hn).
  - by apply music_ext_name, m4a_is_music.
  - by apply wf_plain_name.
  - exists d. by rewrite Hd.
Qed.

(** The planner on a lossless file *)
Lemma decide_flac fs p :
  wf_path p = true -> mem (lower (suffix p)) FLAC_EXTS = true ->
  (ffmpeg_decode_test fs p = true -> decide_actions_for_path fs p = Ok []) /\
  (ffmpeg_decode_test fs p = false ->
     exists d, unique_target_path fs (flac_sibling p) = Ok d /\
               exists_ fs d = false /\ has_name d = true /\
               decide_actions_for_path fs p = Ok [repair_action p d]).
Proof.
  intros Hwf Hext. unfold decide_actions_for_path.
  rewrite (flac_not_m4a _ Hext), Hext. split; intros Ht; rewrite Ht; [done|].
  destruct (planned_destination_Ok fs p) as (d & Hd & Hu & Hf & Hn).
  - by apply music_ext_name, flac_is_music.
  - by apply wf_plain_name.
  - exists d. by rewrite Hd.
Qed.

(** The planner on any other file *)
Lemma decide_other fs p :
  mem (lower (suffix p)) MUSIC_EXTS = false -> decide_actions_for_path fs p = Ok [].
Proof.
  rewrite music_cases. intros [H1 H2]%orb_false_iff.
  unfold decide_actions_for_path. by rewrite H1, H2.
Qed.

Lemma convert_action_ok p d : has_name d = true -> planned_ok (convert_action p d).
Proof. intros H. split; [done|]. by exists d. Qed.

Lemma repair_action_ok p d : has_name d = true -> planned_ok (repair_action p d).
Proof. intros H. split; [done|]. by exists d. Qed.

(** The planner returns on every well-formed path, and what it returns
    has the shape the engine relies on. *)
Lemma decide_total fs p :
  wf_path p = true ->
  exists acts, decide_actions_for_path fs p = Ok acts /\
               Forall planned_ok acts /\ Forall (fun a => src a = p) acts.
Proof.
  intros Hwf.
  destruct (mem (lower (suffix p)) M4A_EXTS) eqn:E1.
  { destruct (decide_m4a fs p Hwf E1) as (d & _ & _ & Hn & ->).
    eexists. split; [done|]. split.
    - constructor; [by apply convert_action_ok | constructor].
    - by constructor. }
  destruct (mem (lower (suffix p)) FLAC_EXTS) eqn:E2.
  { destruct (decide_flac fs p Hwf E2) as [Hok Hbad].
    destruct (ffmpeg_decode_test fs p).
    - rewrite Hok by done. eexists. by repeat split.
    - destruct (Hbad eq_refl) as (d & _ & _ & Hn & ->).
      eexists. split; [done|]. split.
      + constructor; [by apply repair_action_ok | constructor].
      + by constructor. }
  rewrite decide_other; [|by rewrite music_cases, E1, E2].
  eexists. by repeat split.
Qed.

End PlannerFacts.

(** ** The name of a path and its text *)

Module NameFacts.
Import PyStr StrFacts PathFacts AllocatorFacts PlannerFacts.

Lemma split_slash_nonempty (s : string) : split_slash s <> [].
Proof.
  destruct s as [|c s]; simpl; [done|].
  destruct (Ascii.eqb c "/"); [done|]. by destruct (split_slash s).
Qed.

Lemma split_slash_plain_id (x : string) : plain x = true -> split_slash x = [x].
Proof.
  induction x as [|c x IH]; [done|]. rewrite plain_cons.
  intros [Hc Hx]%andb_true_iff. simpl.
  destruct (Ascii.eqb c "/"); [done|]. by rewrite IH.
Qed.

(** Appending separator-free text extends the last piece. *)
Lemma split_slash_app_plain (A z : string) :
  plain z = true ->
  split_slash (A +:+ z) =
    removelast (split_slash A) ++ [List.last (split_slash A) "" +:+ z].
Proof.
  intros Hz. induction A as [|a A IH].
  - rewrite sapp_nil_l. by apply split_slash_plain_id.
  - rewrite sapp_cons. simpl split_slash. rewrite IH.
    pose proof (split_slash_nonempty A) as Hne.
    destruct (split_slash A) as [|h t]; [done|].
    destruct (Ascii.eqb a "/").
    + destruct t; done.
    + destruct t as [|h' t']; done.
Qed.

Lemma last_split_slash_app (A z : string) :
  plain z = true ->
  List.last (split_slash (A +:+ z)) "" = List.last (split_slash A) "" +:+ z.
Proof. intros Hz. by rewrite split_slash_app_plain, last_last. Qed.

(** After a trailing separator the last piece is empty. *)
Lemma split_slash_dir (B : string) :
  exists l, split_slash (B +:+ "/") = l ++ [""] /\ l <> [].
Proof.
  induction B as [|b B (l & IH & Hl)].
  - by exists [""].
  - rewrite sapp_cons. simpl split_slash. rewrite IH.
    destruct (Ascii.eqb b "/").
    + by exists ("" :: l).
    + destruct l as [|h t]; [done|]. by exists (String b h :: t).
Qed.

Lemma last_split_slash_dir (B : string) : List.last (split_slash (B +:+ "/")) "" = "".
Proof. destruct (split_slash_dir B) as (l & -> & _). apply last_last. Qed.

Lemma root_ok_cases (p : Path) :
  root_ok p = true -> root p = "" \/ root p = "" +:+ "/" \/ root p = "/" +:+ "/".
Proof.
  unfold root_ok. rewrite !orb_true_iff, !String.eqb_eq. intros [[->| ->]| ->]; auto.
Qed.

Lemma last_split_parent (p : Path) :
  root_ok p = true -> List.last (split_slash (parent_text p)) "" = "".
Proof.
  intros Hr. unfold parent_text, dir_text.
  destruct (removelast (names p)) as [|x l].
  - destruct (root_ok_cases p Hr) as [->|[->| ->]]; [done|apply last_split_slash_dir..].
  - rewrite <- sapp_assoc. apply last_split_slash_dir.
Qed.

(** The name of a path is the text after the last separator of [str]. *)
Lemma basename_str (p : Path) :
  has_name p = true -> root_ok p = true ->
  List.last (split_slash (str p)) "" = name p.
Proof.
  intros [Hn Hp]%has_name_spec Hr.
  rewrite (str_parent_name p Hn), last_split_slash_app by done.
  by rewrite last_split_parent.
Qed.

Lemma str_eq_name (p q : Path) :
  has_name p = true -> root_ok p = true -> has_name q = true -> root_ok q = true ->
  str p = str q -> name p = name q.
Proof.
  intros Hp Hrp Hq Hrq E.
  by rewrite <- (basename_str p), <- (basename_str q), E.
Qed.

Lemma parse_root_ok (s : string) : root_ok (parse s) = true.
Proof.
  unfold root_ok, parse, splitroot; simpl.
  destruct s as [|a [|b [|c s]]]; try done.
  - by destruct (Ascii.eqb_spec a "/") as [->|];
      [|destruct a as [[] [] [] [] [] [] [] []]].
  - destruct a as [[] [] [] [] [] [] [] []]; try done.
    by destruct b as [[] [] [] [] [] [] [] []].
  - destruct a as [[] [] [] [] [] [] [] []]; try done.
    destruct b as [[] [] [] [] [] [] [] []]; try done.
    by destruct c as [[] [] [] [] [] [] [] []].
Qed.

Lemma joinpath_root_ok (p : Path) (s : string) :
  root_ok p = true -> root_ok (joinpath p s) = true.
Proof.
  intros H. unfold joinpath. destruct (is_absolute _); [apply parse_root_ok | done].
Qed.

(** A planned source is never the audit log. *)
Lemma planned_src_not_log (a : Action) (log_csv : Path) :
  planned_src a -> log_path_ok log_csv -> str (src a) <> str log_csv.
Proof.
  intros (Hwf & Hr & Hm) (Hn & Hrl & Hl) E.
  assert (has_name (src a) = true) as Hs.
  { apply has_name_spec. split; [by apply music_ext_name | by apply wf_plain_name]. }
  pose proof (str_eq_name _ _ Hs Hr Hn Hrl E) as Hname.
  unfold suffix in Hm, Hl. rewrite Hname in Hm. congruence.
Qed.


Lemma splitroot_plain (x : string) : plain x = true -> splitroot x = "".
Proof.
  destruct x as [|c x]; [done|]. rewrite plain_cons.
  intros [Hc _]%andb_true_iff. apply negb_true_iff, Ascii.eqb_neq in Hc.
  unfold splitroot. destruct c as [[] [] [] [] [] [] [] []]; try done.
Qed.

(** A single component parses to itself. *)
Lemma parse_component (x : string) :
  plain x = true -> keep_part x = true -> parse x = mkPath "" [x].
Proof.
  intros Hp Hk. unfold parse. rewrite splitroot_plain, split_slash_plain_id by done.
  rewrite filter_cons, decide_True by done. done.
Qed.

Lemma last_elem_of (l : list string) : List.last l "" <> "" -> List.last l "" ∈ l.
Proof.
  destruct l as [|x l] using rev_ind; [done|].
  rewrite last_last. intros _. apply elem_of_app. right. by left.
Qed.

(** The name of a parsed path, when there is one, is a single component. *)
Lemma parse_name_component (s : string) :
  name (parse s) <> "" ->
  plain (name (parse s)) = true /\ keep_part (name (parse s)) = true.
Proof.
  intros H. split; [apply wf_plain_name, parse_wf|].
  apply last_elem_of in H. unfold parse in H; simpl in H.
  by apply list_elem_of_filter in H as [H _].
Qed.

Lemma joinpath_component (rt : Path) (x : string) :
  plain x = true -> keep_part x = true ->
  joinpath rt x = mkPath (root rt) (names rt ++ [x]).
Proof.
  intros Hp Hk. unfold joinpath. by rewrite parse_component.
Qed.

End NameFacts.

(** Well-formedness of the paths that [parse] and [joinpath] build *)
Create HintDb pathlib.
#[export] Hint Resolve PlannerFacts.parse_wf PlannerFacts.joinpath_wf
  NameFacts.parse_root_ok NameFacts.joinpath_root_ok : pathlib.

(** ** The engine, one action *)

Module EngineFacts.
Import PyStr StrFacts PathFacts AllocatorFacts PlannerFacts.

Implicit Types (fs : gmap string node) (p q d : Path) (a : Action) (st : state).

Lemma final_cmd_planned a d' :
  planned_ok a -> final_cmd a (Some d') = Ok (removelast (cmd a) ++ [str d']).
Proof.
  intros (_ & d & _ & _ & Hc). unfold final_cmd. rewrite Hc. simpl.
  destruct (String.eqb (str d') (str d)) eqn:E; simpl; [|done].
  by apply String.eqb_eq in E as ->.
Qed.

Lemma final_destination_planned fs a :
  planned_ok a ->
  exists d d', dst a = Some d /\ unique_target_path fs d = Ok d' /\
               exists_ fs d' = false /\ final_destination fs a = Ok (Some d').
Proof.
  intros (_ & d & Hd & Hn & _).
  destruct (unique_target_path_total fs d) as (d' & Hu & Hf); [done|].
  exists d, d'. unfold final_destination. by rewrite Hd, Hu.
Qed.

Lemma safe_remove_lookup_ne fs p (k : string) :
  k <> str p -> safe_remove fs p !! k = fs !! k.
Proof.
  intros Hk. unfold safe_remove, os_remove.
  destruct (fs !! str p) as [[|c]|]; [done| |done].
  destruct (locked c); [done|]. by rewrite lookup_delete_ne.
Qed.

(** After [safe_remove] the path is gone, or [os.remove] raised and the
    disk is as before. *)
Lemma safe_remove_cases fs p :
  (os_remove fs p = Some (delete (str p) fs) /\ safe_remove fs p = delete (str p) fs) \/
  (os_remove fs p = None /\ safe_remove fs p = fs).
Proof.
  unfold safe_remove, os_remove.
  destruct (fs !! str p) as [[|c]|]; [by right| |by right].
  destruct (locked c); [by right | by left].
Qed.

Lemma remove_partial_lookup_ne fs d (k : string) :
  k <> str d -> remove_partial fs (Some d) !! k = fs !! k.
Proof.
  intros Hk. unfold remove_partial. destruct (exists_ fs d); [|done].
  by apply safe_remove_lookup_ne.
Qed.

(** After the cleanup the partial output is gone unless its removal
    raised. *)
Lemma remove_partial_cases fs d :
  remove_partial fs (Some d) !! str d = None \/
  (is_Some (fs !! str d) /\ os_remove fs d = None /\ remove_partial fs (Some d) = fs).
Proof.
  unfold remove_partial. destruct (exists_ fs d) eqn:E.
  - destruct (safe_remove_cases fs d) as [[_ ->]|[H ->]].
    + left. apply lookup_delete_eq.
    + right. split; [by apply exists_true | done].
  - left. by apply exists_false.
Qed.

Section Step.
Variable ffmpeg : list string -> filesystem -> Z * filesystem.

(** What one round of the loop does in Apply mode. *)
Lemma execute_apply a st :
  planned_ok a ->
  exists d d' rc fs1 o st',
    dst a = Some d /\ unique_target_path (disk st) d = Ok d' /\
    exists_ (disk st) d' = false /\
    ffmpeg (removelast (cmd a) ++ [str d']) (disk st) = (rc, fs1) /\
    execute_action ffmpeg false a st = Ok (o, st') /\
    launches st' = launches st ++ [(removelast (cmd a) ++ [str d'], disk st)] /\
    log st' = log st ++ [mk_row a (Some d') o] /\
    ((rc <> 0%Z /\ o = Error /\
      disk st' = remove_partial fs1 (Some d') /\
      success st' = success st /\ error st' = S (error st)) \/
     (rc = 0%Z /\ verification_fails fs1 (Some d') = true /\ o = ErrorVerify /\
      disk st' = remove_partial fs1 (Some d') /\
      success st' = success st /\ error st' = S (error st)) \/
     (rc = 0%Z /\ verification_fails fs1 (Some d') = false /\ o = Success /\
      disk st' = safe_remove fs1 (src a) /\
      success st' = S (success st) /\ error st' = error st)).
Proof.
  intros Hok.
  destruct (final_destination_planned (disk st) a Hok) as (d & d' & Hd & Hu & Hf & Hfd).
  destruct (ffmpeg (removelast (cmd a) ++ [str d']) (disk st)) as [rc fs1] eqn:Hrun.
  unfold execute_action. rewrite Hfd, bind_Ok.
  rewrite (final_cmd_planned a d' Hok), bind_Ok.
  unfold run_ffmpeg_with_progress. rewrite Hrun.
  destruct (Z.eqb_spec rc 0) as [->|Hrc]; cbn [negb].
  - destruct (verification_fails fs1 (Some d')) eqn:Hv.
    + eexists d, d', 0%Z, fs1, ErrorVerify, _.
      do 7 (split; [done|]). right; left. by repeat split.
    + eexists d, d', 0%Z, fs1, Success, _.
      do 7 (split; [done|]). right; right. by repeat split.
  - eexists d, d', rc, fs1, Error, _.
    do 7 (split; [done|]). left. by repeat split.
Qed.

(** In Preview mode the round writes one row and nothing else. *)
Lemma execute_preview a st :
  planned_ok a ->
  exists d d',
    dst a = Some d /\ unique_target_path (disk st) d = Ok d' /\
    exists_ (disk st) d' = false /\
    execute_action ffmpeg true a st =
      Ok (Preview,
          {| disk := disk st; success := success st; error := error st;
             log := log st ++ [mk_row a (Some d') Preview];
             launches := launches st |}).
Proof.
  intros Hok.
  destruct (final_destination_planned (disk st) a Hok) as (d & d' & Hd & Hu & Hf & Hfd).
  exists d, d'. unfold execute_action. by rewrite Hfd, bind_Ok.
Qed.

Lemma apply_loop_cons preview a rest st :
  is_known_kind (kind a) = true ->
  apply_loop ffmpeg preview (a :: rest) st =
    (execute_action ffmpeg preview a st ≫= fun r => apply_loop ffmpeg preview rest r.2).
Proof.
  intros H. simpl. rewrite H. simpl.
  destruct (execute_action ffmpeg preview a st) as [[o st']| |]; done.
Qed.


(** The loop in Preview mode: one row per action, the disk, the counters
    and the list of launches untouched. *)
Lemma apply_loop_preview actions st :
  Forall planned_ok actions ->
  exists st' rows,
    apply_loop ffmpeg true actions st = Ok st' /\
    disk st' = disk st /\ launches st' = launches st /\
    success st' = success st /\ error st' = error st /\
    log st' = log st ++ rows /\
    Forall2 (fun a r => row_kind r = kind a /\ row_source r = str (src a) /\
                        row_note r = note a /\ row_outcome r = Preview /\
                        exists d d', dst a = Some d /\
                          unique_target_path (disk st) d = Ok d' /\
                          exists_ (disk st) d' = false /\
                          row_destination r = str d')
            actions rows.
Proof.
  intros H. revert st. induction H as [|a rest Ha Hrest IH]; intros st.
  { exists st, []. rewrite app_nil_r. simpl. repeat split; constructor. }
  destruct (execute_preview a st Ha) as (d & d' & Hd & Hu & Hf & Hex).
  match type of Hex with _ = Ok (_, ?s) => set (st1 := s) in * end.
  destruct (IH st1) as (st' & rows & Hloop & Hdisk & Hl & Hs & He & Hlog & Hall).
  exists st', (mk_row a (Some d') Preview :: rows).
  rewrite apply_loop_cons by apply Ha. rewrite Hex, bind_Ok. simpl.
  repeat split; try done.
  - by rewrite Hlog; simpl; rewrite <- app_assoc.
  - constructor; [|done]. simpl. repeat split. by exists d, d'.
Qed.

End Step.

End EngineFacts.

(** ** Planning a whole report *)

Module PlanFacts.
Import PyStr StrFacts PathFacts AllocatorFacts PlannerFacts NameFacts.

Section Plan.
Variable realpath : Path -> Path.
Implicit Types (fs : gmap string node) (p root : Path).

Lemma normalize_to_root_wf (raw : string) root :
  wf_path root = true -> wf_path (normalize_to_root raw root) = true.
Proof.
  intros H. unfold normalize_to_root. destruct (negb _); auto with pathlib.
Qed.

Lemma resolve_candidate_wf fs root (raw : string) p :
  wf_path root = true ->
  resolve_candidate realpath fs root raw = Some p -> wf_path p = true.
Proof.
  intros Hroot. unfold resolve_candidate.
  destruct (_ && _ && _).
  - intros [= <-]. by apply normalize_to_root_wf.
  - destruct (_ && _); [|done]. intros [= <-]. by apply joinpath_wf.
Qed.

Lemma resolve_candidate_root_ok fs root (raw : string) p :
  root_ok root = true ->
  resolve_candidate realpath fs root raw = Some p -> root_ok p = true.
Proof.
  intros Hroot. unfold resolve_candidate.
  destruct (_ && _ && _).
  - intros [= <-]. unfold normalize_to_root. destruct (negb _); auto with pathlib.
  - destruct (_ && _); [|done]. intros [= <-]. auto with pathlib.
Qed.

(** The sources that one candidate plans for *)
Lemma plan_candidate_src fs root (raw : string) row acts :
  wf_path root = true -> root_ok root = true ->
  plan_candidate realpath fs root raw = Ok (row, acts) ->
  Forall planned_src acts.
Proof.
  intros Hwf Hroot. unfold plan_candidate.
  destruct (resolve_candidate realpath fs root raw) as [p|] eqn:Hres.
  - destruct (mem (lower (suffix p)) MUSIC_EXTS) eqn:Hm; cbn [negb].
    + destruct (decide_total fs p) as (l & -> & _ & Hsrc).
      { by apply (resolve_candidate_wf fs root raw). }
      rewrite bind_Ok. intros H.
      assert (acts = l) as -> by (destruct l; by injection H).
      eapply Forall_impl; [exact Hsrc|]. intros a Ha. unfold planned_src.
      rewrite Ha. split; [|split]; [|  |done].
      * by apply (resolve_candidate_wf fs root raw).
      * by apply (resolve_candidate_root_ok fs root raw).
    + intros [= _ <-]. constructor.
  - intros [= _ <-]. constructor.
Qed.

(** One candidate never raises, and what it plans has the shape the
    engine relies on. *)
Lemma plan_candidate_total fs root (raw : string) :
  wf_path root = true ->
  exists row acts, plan_candidate realpath fs root raw = Ok (row, acts) /\
                   raw_text row = raw /\ Forall planned_ok acts.
Proof.
  intros Hroot. unfold plan_candidate.
  destruct (resolve_candidate realpath fs root raw) as [p|] eqn:Hres.
  - destruct (negb _); [by eexists _, _|].
    destruct (decide_total fs p) as (acts & -> & Hok & _).
    { by apply (resolve_candidate_wf fs root raw). }
    rewrite bind_Ok. destruct acts; by eexists _, _.
  - by eexists _, _.
Qed.

Lemma plan_loop_total fs root (seen : gset string) (candidates : list string) :
  wf_path root = true ->
  exists rows actions,
    plan_loop realpath fs root seen candidates = Ok (rows, actions) /\
    Forall planned_ok actions.
Proof.
  intros Hroot. revert seen.
  induction candidates as [|raw rest IH]; intros seen; simpl.
  { by exists [], []. }
  destruct (bool_decide (raw ∈ seen)); [apply IH|].
  destruct (plan_candidate_total fs root raw Hroot) as (row & acts & -> & _ & Hacts).
  destruct (IH ({[raw]} ∪ seen)) as (rows & actions & -> & Hall).
  exists (row :: rows), (acts ++ actions). split; [done|].
  by apply Forall_app.
Qed.

Lemma plan_loop_src fs root (seen : gset string) (candidates : list string) rows actions :
  wf_path root = true -> root_ok root = true ->
  plan_loop realpath fs root seen candidates = Ok (rows, actions) ->
  Forall planned_src actions.
Proof.
  intros Hwf Hroot. revert seen rows actions.
  induction candidates as [|raw rest IH]; intros seen rows actions; simpl.
  { intros [= _ <-]. constructor. }
  destruct (bool_decide (raw ∈ seen)); [apply IH|].
  destruct (plan_candidate realpath fs root raw) as [[row acts]| |] eqn:Hc; [|done..].
  rewrite bind_Ok.
  destruct (plan_loop realpath fs root ({[raw]} ∪ seen) rest) as [[rows' actions']| |] eqn:Hl;
    [|done..].
  rewrite bind_Ok. intros [= _ <-]. apply Forall_app. split.
  - by apply (plan_candidate_src fs root raw row).
  - by apply (IH _ _ _ Hl).
Qed.

Lemma plan_from_xlsx_src fs (sheets : list DataFrame) root rows actions :
  wf_path root = true -> root_ok root = true ->
  plan_from_xlsx realpath fs sheets root = Ok (rows, actions) ->
  Forall planned_src actions.
Proof. apply plan_loop_src. Qed.

Lemma plan_from_xlsx_total fs (sheets : list DataFrame) root :
  wf_path root = true ->
  exists rows actions,
    plan_from_xlsx realpath fs sheets root = Ok (rows, actions) /\
    Forall planned_ok actions.
Proof. apply plan_loop_total. Qed.

End Plan.

End PlanFacts.

(** ** Verification and the disk *)

Module DiskFacts.
Import PyStr StrFacts PathFacts AllocatorFacts PlannerFacts EngineFacts PlanFacts.
Import Fixtures.



Lemma verify_audio_ok_ext (fs fs' : gmap string node) (p : Path) :
  fs' !! str p = fs !! str p -> verify_audio_ok fs' p = verify_audio_ok fs p.
Proof. intros H. unfold verify_audio_ok, ffprobe_json. by rewrite H. Qed.

Lemma exists_ext (fs fs' : gmap string node) (p : Path) :
  fs' !! str p = fs !! str p -> exists_ fs' p = exists_ fs p.
Proof. intros H. unfold exists_. by rewrite H. Qed.

Lemma writes_only_its_output (c : content) (rc : Z) : writes_only_output (writes c rc).
Proof.
  intros cmd fs k Hk. unfold writes. destruct (last cmd) as [out|]; [|done].
  simpl. apply lookup_insert_ne. congruence.
Qed.

Lemma convert_track_planned : planned_ok convert_track.
Proof. apply convert_action_ok. reflexivity. Qed.

Lemma convert_track_src : planned_src convert_track.
Proof. by repeat split. Qed.

Lemma log_preview_ok : log_path_ok log_preview.
Proof. by repeat split. Qed.

(** The two log files of [main] are log paths. *)
Lemma main_log_path_ok (rt : Path) (preview : bool) :
  wf_path rt = true -> root_ok rt = true ->
  log_path_ok
    (joinpath rt (if preview then "fix_log_preview.csv" else "fix_log_apply.csv")).
Proof.
  intros Hwf Hr.
  destruct preview; rewrite NameFacts.joinpath_component by done;
    (split; [|split]); try done.
  - unfold has_name. by rewrite name_snoc.
  - unfold suffix. by rewrite name_snoc.
  - unfold has_name. by rewrite name_snoc.
  - unfold suffix. by rewrite name_snoc.
Qed.

Section MainFacts.
Variable ffmpeg : list string -> gmap string node -> Z * gmap string node.
Variable which : string -> bool.
Variable read_workbook : Path -> option (list DataFrame).
Variable realpath : Path -> Path.



(** What [main] plans has the shape that the statements on the engine
    assume. *)
Lemma planned_actions_shape (fs : gmap string node) (sheets : list DataFrame)
    (root_text : string) rows actions :
  plan_from_xlsx realpath fs sheets (parse root_text) = Ok (rows, actions) ->
  Forall planned_ok actions /\ Forall planned_src actions.
Proof.
  intros H. split.
  - destruct (plan_from_xlsx_total realpath fs sheets (parse root_text))
      as (rows' & actions' & H' & Hok); [apply parse_wf|]. congruence.
  - apply (plan_from_xlsx_src realpath fs sheets (parse root_text) rows);
      auto with pathlib.
Qed.

End MainFacts.

End DiskFacts.

(** ** Report extractor *)

Module ExtractFacts.
Import PyStr StrFacts.

Lemma lstrip_head (s : string) : head_ok (lstrip s).
Proof.
  induction s as [|c s IH]; simpl; [done|].
  destruct (is_space c) eqn:E; [done|]. simpl. done.
Qed.

Lemma lstrip_id (s : string) : head_ok s -> lstrip s = s.
Proof. destruct s as [|c s]; simpl; [done|]. by intros ->. Qed.

Lemma rstrip_head (s : string) : head_ok s -> head_ok (rstrip s).
Proof.
  destruct s as [|c s]; simpl; [done|]. intros Hc.
  destruct (rstrip s); simpl; [by rewrite Hc | done].
Qed.

Lemma rstrip_idemp (s : string) : rstrip (rstrip s) = rstrip s.
Proof.
  induction s as [|c s IH]; simpl; [done|].
  destruct (rstrip s) as [|x y] eqn:E.
  - destruct (is_space c) eqn:Ec; simpl; [done|]. by rewrite Ec.
  - simpl. simpl in IH. by rewrite IH.
Qed.

Lemma strip_idemp (s : string) : strip (strip s) = strip s.
Proof.
  unfold strip. rewrite (lstrip_id (rstrip (lstrip s))).
  - apply rstrip_idemp.
  - apply rstrip_head, lstrip_head.
Qed.

Lemma unique_in_order_elem (seen : gset string) (l : list string) (c : string) :
  c ∈ unique_in_order seen l -> c ∈ l.
Proof.
  revert seen. induction l as [|p r IH]; intros seen; simpl; [done|].
  destruct (bool_decide (p ∈ seen)).
  - intros H. right. by apply (IH seen).
  - intros [->|H]%elem_of_cons; [by left|]. right. by apply (IH _ H).
Qed.

(** What [looks_like_path] accepts *)
Lemma looks_like_path_ext (s : string) :
  looks_like_path s = true ->
  exists ext, ext ∈ MUSIC_EXTS /\ endswith (lower (strip s)) ext = true.
Proof.
  unfold looks_like_path. destruct (String.length s <? 5); [done|].
  intros (ext & Hin & He)%existsb_exists. exists ext.
  split; [by apply list_elem_of_In | done].
Qed.

(** Every candidate is stripped and ends, in lower case, with one of the
    recognized extensions. *)
Lemma candidate_ext (df : DataFrame) (c : string) :
  c ∈ extract_candidate_paths df ->
  exists ext, ext ∈ MUSIC_EXTS /\ endswith (lower c) ext = true.
Proof.
  unfold extract_candidate_paths. intros H%unique_in_order_elem.
  assert (c ∈ List.flat_map
                (fun j => strip <$> List.filter looks_like_path (column_values df j))
                (find_path_columns df) \/
          c ∈ List.filter looks_like_path (strip <$> all_values df)) as [Hc|Hc].
  { destruct (List.flat_map _ _) eqn:E; [by right | by left]. }
  - apply list_elem_of_In, in_flat_map in Hc as (j & _ & Hc).
    apply list_elem_of_In, list_elem_of_fmap in Hc as (v & -> & Hv).
    apply list_elem_of_In, filter_In in Hv as [_ Hv].
    by apply looks_like_path_ext.
  - apply list_elem_of_In, filter_In in Hc as [Hin Hc].
    apply list_elem_of_In, list_elem_of_fmap in Hin as (v & -> & _).
    apply looks_like_path_ext in Hc. by rewrite strip_idemp in Hc.
Qed.

End ExtractFacts.

(** ** The extension of a resolved candidate *)

Module SuffixFacts.
Import PyStr StrFacts PathFacts AllocatorFacts PlannerFacts NameFacts.

Lemma endswith_refl (s : string) : endswith s s = true.
Proof. destruct s; simpl; by rewrite ?String.eqb_refl. Qed.

Lemma endswith_cons (a : ascii) (r x : string) :
  endswith r x = true -> endswith (String a r) x = true.
Proof. intros H. simpl. rewrite H. by destruct (String.eqb _ _). Qed.

Lemma endswith_iff (s x : string) :
  endswith s x = true <-> exists pre, s = pre +:+ x.
Proof.
  split.
  - induction s as [|a s IH]; simpl.
    + destruct (String.eqb_spec "" x) as [<-|]; [|done]. by exists "".
    + destruct (String.eqb_spec (String a s) x) as [<-|]; [by exists ""|].
      intros [pre ->]%IH. by exists (String a pre).
  - intros [pre ->]. induction pre as [|a pre IH].
    + apply endswith_refl.
    + rewrite sapp_cons. by apply endswith_cons.
Qed.

Lemma endswith_length (s x : string) :
  endswith s x = true -> String.length x <= String.length s.
Proof. intros [pre ->]%endswith_iff. rewrite sapp_length. lia. Qed.

Lemma lower_length (s : string) : String.length (lower s) = String.length s.
Proof. induction s as [|c s IH]; simpl; [done | by rewrite IH]. Qed.

Lemma lower_ascii_slash (c : ascii) : Ascii.eqb (lower_ascii c) "/" = Ascii.eqb c "/".
Proof. by destruct c as [[] [] [] [] [] [] [] []]. Qed.

Lemma lower_ascii_dot (c : ascii) : Ascii.eqb (lower_ascii c) "." = Ascii.eqb c ".".
Proof. by destruct c as [[] [] [] [] [] [] [] []]. Qed.

Lemma plain_lower (s : string) : plain (lower s) = plain s.
Proof.
  induction s as [|c s IH]; [done|]. simpl lower.
  by rewrite !plain_cons, lower_ascii_slash, IH.
Qed.

Lemma lower_nonempty_iff (s : string) : nonempty (lower s) = nonempty s.
Proof. by destruct s. Qed.

(** The last piece of a string that ends with a separator-free text ends
    with that text. *)
Lemma last_piece_ext (c ext : string) :
  plain ext = true -> endswith (lower c) ext = true ->
  endswith (lower (List.last (split_slash c) "")) ext = true.
Proof.
  intros Hext. induction c as [|a c IH]; [done|].
  intros H. simpl in H.
  destruct (String.eqb_spec (String (lower_ascii a) (lower c)) ext) as [E|_].
  - assert (plain (String a c) = true) as Hp.
    { rewrite <- plain_lower. simpl lower. by rewrite E. }
    rewrite split_slash_plain_id by done. simpl List.last. simpl lower.
    rewrite E. apply endswith_refl.
  - specialize (IH H). simpl split_slash.
    pose proof (split_slash_nonempty c) as Hne.
    destruct (split_slash c) as [|h t]; [done|].
    destruct (Ascii.eqb a "/").
    + done.
    + destruct t as [|h' t']; [|done]. simpl in *. by apply endswith_cons.
Qed.

Lemma last_filter_keep (l : list string) :
  keep_part (List.last l "") = true ->
  List.last (filter (fun x => keep_part x = true) l) "" = List.last l "".
Proof.
  destruct l as [|x l] using rev_ind; [done|].
  rewrite last_last. intros H.
  rewrite filter_app, filter_cons, decide_True by done.
  rewrite filter_nil. by rewrite last_last.
Qed.

Lemma keep_part_long (z : string) : 1 < String.length z -> keep_part z = true.
Proof.
  intros H. unfold keep_part. rewrite eqb_dot_long by done.
  destruct z; [simpl in H; lia | done].
Qed.

Lemma music_ext_facts (ext : string) :
  ext ∈ MUSIC_EXTS ->
  plain ext = true /\ 1 < String.length ext /\
  exists t, ext = String "." t /\ rsplit_dot t = None /\ mem ext MUSIC_EXTS = true.
Proof.
  unfold MUSIC_EXTS. rewrite !elem_of_cons, elem_of_nil.
  intros [->|[->|[->|[]]]]; (split; [done|]); (split; [simpl; lia|]);
    eexists; by repeat split.
Qed.

(** The name of a candidate that ends with a recognized extension *)
Lemma candidate_name (c ext : string) :
  ext ∈ MUSIC_EXTS -> endswith (lower c) ext = true ->
  name (parse c) = List.last (split_slash c) "" /\
  name (parse c) <> "" /\
  endswith (lower (name (parse c))) ext = true.
Proof.
  intros Hext Hc. destruct (music_ext_facts ext Hext) as (Hp & Hlen & _).
  pose proof (last_piece_ext c ext Hp Hc) as Hz.
  pose proof (endswith_length _ _ Hz) as Hl. rewrite lower_length in Hl.
  assert (name (parse c) = List.last (split_slash c) "") as ->.
  { unfold name, parse. simpl. apply last_filter_keep, keep_part_long. lia. }
  split; [done|]. split; [|done]. intros E. rewrite E in Hl. simpl in Hl. lia.
Qed.

Lemma rsplit_dot_lower (z : string) :
  rsplit_dot (lower z) = (fun ab => (lower ab.1, lower ab.2)) <$> rsplit_dot z.
Proof.
  induction z as [|c z IH]; [done|]. simpl. rewrite IH.
  destruct (rsplit_dot z) as [[a b]|]; simpl; [done|].
  rewrite lower_ascii_dot. by destruct (Ascii.eqb c ".").
Qed.

Lemma suffix_of_lower (z : string) : suffix_of (lower z) = lower (suffix_of z).
Proof.
  unfold suffix_of. rewrite rsplit_dot_lower.
  destruct (rsplit_dot z) as [[a b]|]; simpl; [|done].
  rewrite lower_nonempty_iff, lower_length. by destruct (_ && _).
Qed.

Lemma rsplit_dot_last (pre t : string) :
  rsplit_dot t = None ->
  rsplit_dot (pre +:+ String "." t) = Some (pre, String "." t).
Proof.
  intros Ht. induction pre as [|a pre IH].
  - rewrite sapp_nil_l. simpl. by rewrite Ht.
  - rewrite sapp_cons. simpl. by rewrite IH.
Qed.

(** The suffix of a lower-case name that ends with a recognized
    extension: the extension, unless the name is nothing else. *)
Lemma suffix_of_music (pre ext : string) :
  ext ∈ MUSIC_EXTS ->
  suffix_of (pre +:+ ext) = if nonempty pre then ext else "".
Proof.
  intros (_ & Hlen & t & -> & Ht & _)%music_ext_facts.
  unfold suffix_of. rewrite rsplit_dot_last by done.
  apply Nat.ltb_lt in Hlen. rewrite Hlen. by destruct (nonempty pre).
Qed.

Lemma nonempty_app_l (a b : string) : nonempty a = true -> nonempty (a +:+ b) = true.
Proof. by destruct a. Qed.

(** A name that ends with a recognized extension is skipped as
    unsupported exactly when it is nothing but that extension. *)
Lemma music_name_suffix (z ext : string) :
  ext ∈ MUSIC_EXTS -> endswith (lower z) ext = true ->
  (mem (lower (suffix_of z)) MUSIC_EXTS = false <-> mem (lower z) MUSIC_EXTS = true).
Proof.
  intros Hext [pre Hpre]%endswith_iff.
  rewrite <- suffix_of_lower, Hpre, (suffix_of_music pre ext Hext).
  destruct (music_ext_facts ext Hext) as (_ & Hlen & _ & _ & _ & Hmem).
  destruct pre as [|a pre].
  - rewrite sapp_nil_l. change (nonempty "") with false. cbv iota.
    by rewrite Hmem.
  - change (nonempty (String a pre)) with true. cbv iota.
    rewrite Hmem. split; [done|]. intros H. exfalso.
    unfold mem in H. apply existsb_exists in H as (e & He & Heq).
    apply String.eqb_eq in Heq. apply list_elem_of_In in He.
    pose proof (suffix_of_music (String a pre) ext Hext) as Hs.
    rewrite Heq in Hs. change (nonempty (String a pre)) with true in Hs.
    cbv iota in Hs.
    revert He Hs. unfold MUSIC_EXTS. rewrite !elem_of_cons, elem_of_nil.
    intros [->|[->|[->|[]]]] Hs; vm_compute in Hs; subst ext;
      simpl in Hlen; lia.
Qed.

Section Resolved.
Variable realpath : Path -> Path.

(** Both routes keep the final component of the candidate. *)
Lemma resolve_candidate_name (fs : gmap string node) (rt : Path) (c : string) (p : Path) :
  name (parse c) <> "" ->
  resolve_candidate realpath fs rt c = Some p -> name p = name (parse c).
Proof.
  intros Hn. unfold resolve_candidate.
  destruct (_ && _ && _).
  - intros [= <-]. unfold normalize_to_root.
    destruct (is_absolute (parse c)) eqn:E; cbn [negb]; [done|].
    unfold joinpath. cbv zeta. rewrite E, (names_split _ Hn).
    rewrite (assoc_L (++)). apply name_snoc.
  - destruct (_ && _); [|done]. intros [= <-].
    destruct (parse_name_component c Hn) as [Hp Hk].
    rewrite joinpath_component by done. apply name_snoc.
Qed.

End Resolved.

End SuffixFacts.

(** * Properties of the pipeline *)

Import PyStr StrFacts PathFacts AllocatorFacts PlannerFacts EngineFacts PlanFacts.
Import NameFacts DiskFacts ExtractFacts SuffixFacts.
Import Fixtures.

(** ** Naming allocator *)



Example unique_target_path_track :
  unique_target_path library (parse "/lib/track.flac") = Ok (parse "/lib/track (2).flac").
Proof. vm_compute. reflexivity. Qed.


(** ** Remediation planner *)



Example decide_track :
  decide_actions_for_path library track_m4a = Ok [convert_track].
Proof. vm_compute. reflexivity. Qed.

Example decide_old_flac :
  decide_actions_for_path library (parse "/lib/old.flac")
  = Ok [repair_action (parse "/lib/old.flac") (parse "/lib/old (2).flac")].
Proof. vm_compute. reflexivity. Qed.

(** ** Verification *)



(** A truncated output after exit code 0 is an ErrorVerify, and it is
    removed; the source stays. *)
Example truncated_output_is_verify_error :
  exists st',
    execute_action encoder_truncates false convert_track (idle library)
      = Ok (ErrorVerify, st') /\
    exists_ (disk st') (parse "/lib/track (2).flac") = false /\
    exists_ (disk st') track_m4a = true.
Proof. eexists. split; [vm_compute; reflexivity|]. split; reflexivity. Qed.

(** ** Path resolver *)


(** Route one, route two and a miss on the sample library *)
Example resolve_route_one :
  resolve_candidate same_path library (parse "/lib") "track.m4a" = Some track_m4a.
Proof. reflexivity. Qed.

Example resolve_route_two :
  resolve_candidate same_path library (parse "/lib") "Music/track.m4a" = Some track_m4a.
Proof. reflexivity. Qed.

Example resolve_outside_root :
  resolve_candidate same_path (<["/other/x.m4a" := File good_audio]> library)
    (parse "/lib") "/other/x.m4a" = None.
Proof. reflexivity. Qed.

(** ** Exit codes *)



(** A batch with one failed action still exits with code 0. *)
Example exit_zero_with_errors :
  exists r, main encoder_fails all_tools one_sheet same_path (sample_args true) library = Ok r /\
            exit_code r = 0%Z /\ error (final r) = 2 /\ success (final r) = 0.
Proof. eexists. split; [vm_compute; reflexivity|]. by repeat split. Qed.

Example exit_two_without_tool :
  exists r, main encoder_ok no_ffprobe one_sheet same_path (sample_args true) library = Ok r /\
            exit_code r = 2%Z /\ final r = idle library.
Proof. eexists. split; [reflexivity|]. by split. Qed.

Example exit_one_without_root :
  exists r, main encoder_ok all_tools one_sheet same_path
              {| arg_xlsx := "/lib/report.xlsx"; arg_root := "/nowhere"; arg_apply := true |}
              library = Ok r /\
            exit_code r = 1%Z /\ final r = idle library.
Proof. eexists. split; [reflexivity|]. by split. Qed.

(** ** Execution engine: launches *)



(** Two actions planned on the same disk for the same destination: the
    second launch is given a name that the first one did not take. *)
Example second_launch_is_reallocated :
  exists st,
    apply_actions encoder_ok library [convert_track; convert_track] log_apply false = Ok st /\
    (fun l => last l.1) <$> launches st
      = [Some "/lib/track (2).flac"; Some "/lib/track (2) (2).flac"].
Proof. eexists. split; [vm_compute; reflexivity|]. reflexivity. Qed.

(** ** Execution engine: Preview mode *)

(** C8.  In Preview mode, over the planned actions, the engine returns;
    the transcoder is never launched; the audit log holds exactly one row
    per action, in order, each with status PREVIEW and the destination the
    allocator gives.  The only entry of the disk that changes is the audit
    log file itself: every source is on the disk as it was, and no
    destination is created.  (The hypotheses say that the actions are as
    the planner records them and that the log file has a name and not the
    extension of an audio file; [planned_actions_shape] and
    [main_log_path_ok] show that [main] meets them.) *)
Theorem preview_does_not_mutate
    (ffmpeg : list string -> gmap string node -> Z * gmap string node)
    (fs : gmap string node) (actions : list Action) (log_csv : Path) :
  Forall planned_ok actions -> Forall planned_src actions -> log_path_ok log_csv ->
  exists st, apply_actions ffmpeg fs actions log_csv true = Ok st /\
    launches st = [] /\ success st = 0 /\ error st = 0 /\
    disk st = <[str log_csv := log_file]> fs /\
    (forall k, k <> str log_csv -> disk st !! k = fs !! k) /\
    Forall (fun a => disk st !! str (src a) = fs !! str (src a)) actions /\
    Forall2 (fun a r => row_kind r = kind a /\ row_source r = str (src a) /\
                        row_note r = note a /\ row_outcome r = Preview /\
                        status_token (row_outcome r) = "PREVIEW" /\
                        exists d d', dst a = Some d /\
                          unique_target_path (<[str log_csv := log_file]> fs) d = Ok d' /\
                          row_destination r = str d' /\
                          fs !! str d' = None /\ disk st !! str d' = None)
            actions (log st).
Proof.
  intros Hok Hsrc Hlog. unfold apply_actions.
  destruct (apply_loop_preview ffmpeg actions
              {| disk := <[str log_csv := log_file]> fs; success := 0; error := 0;
                 log := []; launches := [] |} Hok)
    as (st & rows & Hst & Hdisk & Hl & Hs & He & Hrows & Hall).
  simpl in *. subst rows. exists st. do 5 (split; [done|]).
  assert (forall k, k <> str log_csv -> disk st !! k = fs !! k) as Hframe.
  { intros k Hk. rewrite Hdisk. by apply lookup_insert_ne. }
  split; [done|]. split.
  - eapply Forall_impl; [exact Hsrc|]. intros a Ha. apply Hframe.
    by apply planned_src_not_log.
  - eapply Forall2_impl; [exact Hall|]. simpl.
    intros a r (H1 & H2 & H3 & H4 & d & d' & Hd & Hu & Hf & Hr).
    rewrite H4. do 5 (split; [done|]). exists d, d'. do 3 (split; [done|]).
    apply exists_false in Hf.
    assert (str d' <> str log_csv) as Hne.
    { intros E. rewrite E, lookup_insert_eq in Hf. discriminate Hf. }
    split; [by rewrite <- Hf, lookup_insert_ne | by rewrite Hdisk].
Qed.

Lemma preview_does_not_mutate_witness :
  Forall planned_ok [convert_track] /\ Forall planned_src [convert_track] /\
  log_path_ok log_preview /\
  exists st, apply_actions encoder_ok library [convert_track] log_preview true = Ok st /\
    launches st = [] /\ success st = 0 /\ error st = 0 /\
    disk st = <[str log_preview := log_file]> library.
Proof.
  assert (Forall planned_ok [convert_track]) as H.
  { repeat constructor. by exists (parse "/lib/track (2).flac"). }
  assert (Forall planned_src [convert_track]) as H'.
  { constructor; [apply convert_track_src | constructor]. }
  split; [exact H|]. split; [exact H'|]. split; [apply log_preview_ok|].
  destruct (preview_does_not_mutate encoder_ok library [convert_track] log_preview
              H H' log_preview_ok)
    as (st & H1 & H2 & H3 & H4 & H5 & _).
  by exists st.
Defined.

(** The scenario of the specification: the report names [Music/track.m4a],
    the root holds [track.m4a]; the preview writes one row and changes no
    file of the library. *)
Example preview_scenario :
  exists r, main encoder_ok all_tools one_sheet same_path (sample_args false) library = Ok r /\
    exit_code r = 0%Z /\ launches (final r) = [] /\
    ((fun x => (row_kind x, row_source x, row_destination x,
                status_token (row_outcome x), row_note x)) <$> log (final r))
      = [("convert_m4a", "/lib/track.m4a", "/lib/track (2).flac", "PREVIEW", "m4a→flac");
         ("repair_flac", "/lib/old.flac", "/lib/old (2).flac", "PREVIEW", "re-encode flac")] /\
    map_to_list (delete "/lib/fix_log_preview.csv" (disk (final r))) = map_to_list library.
Proof.
  eexists. split; [vm_compute; reflexivity|]. split; [done|]. split; [done|].
  split; [reflexivity|]. vm_compute. reflexivity.
Qed.

(** ** Execution engine: commit and cleanup *)

(** C1, as the code has it.  For an action of the planner's shape whose
    source exists at launch, run in Apply mode with a transcoder that writes
    nothing but its output: the outcome is Success exactly when the exit
    code is zero and the destination exists and passes verification; the
    engine tries to remove the source exactly in that case.  When the
    outcome is not Success the source is on the disk as it was.  When it is
    Success the destination is on the disk and passes verification, and the
    source is gone unless [os.remove] raised on it, which is only warned
    about and leaves the source as it was.  So a source that is gone means
    Success. *)
Theorem commit_safety
    (ffmpeg : list string -> gmap string node -> Z * gmap string node)
    (a : Action) (st : state) :
  planned_ok a -> writes_only_output ffmpeg -> exists_ (disk st) (src a) = true ->
  exists d' rc fs1 o st',
    execute_action ffmpeg false a st = Ok (o, st') /\
    ffmpeg (removelast (cmd a) ++ [str d']) (disk st) = (rc, fs1) /\
    (o = Success <->
       rc = 0%Z /\ exists_ fs1 d' = true /\ verify_audio_ok fs1 d' = true) /\
    (o <> Success -> disk st' !! str (src a) = disk st !! str (src a)) /\
    (o = Success ->
       disk st' = safe_remove fs1 (src a) /\
       exists_ (disk st') d' = true /\ verify_audio_ok (disk st') d' = true /\
       (exists_ (disk st') (src a) = false \/
        (os_remove fs1 (src a) = None /\
         disk st' !! str (src a) = disk st !! str (src a)))) /\
    (exists_ (disk st') (src a) = false -> o = Success).
Proof.
  intros Hok Hframe Hsrc.
  destruct (execute_apply ffmpeg a st Hok)
    as (d & d' & rc & fs1 & o & st' & Hd & Hu & Hf & Hrun & Hex & Hl & Hlog & Hcases).
  exists d', rc, fs1, o, st'. split; [done|]. split; [done|].
  assert (str (src a) <> str d') as Hne.
  { intros E. unfold exists_ in Hsrc, Hf. rewrite E in Hsrc.
    destruct (disk st !! str d'); done. }
  assert (fs1 !! str (src a) = disk st !! str (src a)) as Hkeep.
  { pose proof (Hframe (removelast (cmd a) ++ [str d']) (disk st) (str (src a))) as H.
    rewrite Hrun in H. apply H. rewrite last_snoc. congruence. }
  assert (verification_fails fs1 (Some d') = false <->
          exists_ fs1 d' = true /\ verify_audio_ok fs1 d' = true) as Hvf.
  { unfold verification_fails. rewrite orb_false_iff, !negb_false_iff. done. }
  assert (forall fs' : gmap string node,
            fs' = remove_partial fs1 (Some d') ->
            fs' !! str (src a) = disk st !! str (src a)) as Hpartial.
  { intros fs' ->. by rewrite remove_partial_lookup_ne. }
  destruct Hcases as [(Hrc & -> & Hdisk & _)|[(-> & Hv & -> & Hdisk & _)|(-> & Hv & -> & Hdisk & _)]].
  - split; [split; [done | by intros [? _]]|].
    split; [intros _; by apply Hpartial|]. split; [done|].
    intros He. apply exists_false in He. rewrite (Hpartial _ Hdisk) in He.
    apply exists_true in Hsrc. rewrite He in Hsrc. by destruct Hsrc.
  - split; [split; [done|]|].
    { intros (_ & H). apply Hvf in H. congruence. }
    split; [intros _; by apply Hpartial|]. split; [done|].
    intros He. apply exists_false in He. rewrite (Hpartial _ Hdisk) in He.
    apply exists_true in Hsrc. rewrite He in Hsrc. by destruct Hsrc.
  - apply Hvf in Hv as [H1 H2]. split; [done|]. split; [done|]. split; [|done].
    intros _. split; [done|].
    assert (disk st' !! str d' = fs1 !! str d') as Hd'.
    { rewrite Hdisk. by apply safe_remove_lookup_ne. }
    split; [by rewrite (exists_ext _ _ _ Hd')|].
    split; [by rewrite (verify_audio_ok_ext _ _ _ Hd')|].
    rewrite Hdisk. destruct (safe_remove_cases fs1 (src a)) as [[_ ->]|[Hrm ->]].
    + left. apply exists_false, lookup_delete_eq.
    + by right.
Qed.

Lemma commit_safety_witness :
  planned_ok convert_track /\ writes_only_output encoder_ok /\
  exists_ (disk (idle library)) (src convert_track) = true /\
  exists o st',
    execute_action encoder_ok false convert_track (idle library) = Ok (o, st') /\
    (exists_ (disk st') (src convert_track) = false -> o = Success).
Proof.
  split; [apply convert_track_planned|]. split; [apply writes_only_its_output|].
  split; [reflexivity|].
  destruct (commit_safety encoder_ok convert_track (idle library)
              convert_track_planned (writes_only_its_output good_audio 0) eq_refl)
    as (d' & rc & fs1 & o & st' & H1 & _ & _ & _ & _ & H6).
  by exists o, st'.
Defined.

(** The scenario of the specification: [track.m4a] and [track.flac] are both
    in the root; after a successful conversion [track.m4a] is gone,
    [track.flac] is untouched and [track (2).flac] is there and verified. *)
Example commit_scenario :
  exists st',
    execute_action encoder_ok false convert_track (idle library) = Ok (Success, st') /\
    disk st' !! "/lib/track.m4a" = None /\
    disk st' !! "/lib/track.flac" = library !! "/lib/track.flac" /\
    verify_audio_ok (disk st') (parse "/lib/track (2).flac") = true.
Proof.
  eexists. split; [vm_compute; reflexivity|]. repeat split; vm_compute; reflexivity.
Qed.

(** C1, as stated, fails when the source cannot be removed: the action
    ends in Success (the destination exists and passes verification) and
    the source is still on the disk. *)
Lemma success_keeps_locked_source :
  planned_ok convert_track /\ writes_only_output encoder_ok /\
  exists st',
    execute_action encoder_ok false convert_track (idle library_locked)
      = Ok (Success, st') /\
    verify_audio_ok (disk st') (parse "/lib/track (2).flac") = true /\
    exists_ (disk st') (src convert_track) = true /\
    ~ (exists_ (disk st') (src convert_track) = true <-> Success <> Success).
Proof.
  split; [apply convert_track_planned|]. split; [apply writes_only_its_output|].
  eexists. split; [vm_compute; reflexivity|].
  split; [vm_compute; reflexivity|]. split; [vm_compute; reflexivity|].
  intros [H _]. by apply H.
Qed.

(** C2, as the code has it.  For an action of the planner's shape run in
    Apply mode with a transcoder that writes nothing but its output: the
    transcoder is launched exactly once; a non-zero exit code gives the
    outcome Error, a zero exit code with a missing or unverified output gives
    the distinct outcome ErrorVerify; in both cases the error counter grows
    by one, the engine tries to remove the output, which is then gone unless
    [os.remove] raised on it (only a warning), a source that was on the disk
    is still there as it was, and the loop goes on with the next action. *)
Theorem failure_semantics
    (ffmpeg : list string -> gmap string node -> Z * gmap string node)
    (a : Action) (rest : list Action) (st : state) :
  planned_ok a -> writes_only_output ffmpeg ->
  exists d' rc fs1 o st',
    execute_action ffmpeg false a st = Ok (o, st') /\
    ffmpeg (removelast (cmd a) ++ [str d']) (disk st) = (rc, fs1) /\
    launches st' = launches st ++ [(removelast (cmd a) ++ [str d'], disk st)] /\
    log st' = log st ++ [mk_row a (Some d') o] /\
    (rc <> 0%Z -> o = Error) /\
    (rc = 0%Z -> exists_ fs1 d' = false \/ verify_audio_ok fs1 d' = false ->
       o = ErrorVerify) /\
    status_token Error <> status_token ErrorVerify /\
    (o = Error \/ o = ErrorVerify ->
       error st' = S (error st) /\ success st' = success st /\
       disk st' = remove_partial fs1 (Some d') /\
       (exists_ (disk st') d' = false \/
        (exists_ fs1 d' = true /\ os_remove fs1 d' = None /\ disk st' = fs1)) /\
       (exists_ (disk st) (src a) = true ->
          disk st' !! str (src a) = disk st !! str (src a))) /\
    apply_loop ffmpeg false (a :: rest) st = apply_loop ffmpeg false rest st'.
Proof.
  intros Hok Hframe.
  destruct (execute_apply ffmpeg a st Hok)
    as (d & d' & rc & fs1 & o & st' & Hd & Hu & Hf & Hrun & Hex & Hl & Hlog & Hcases).
  exists d', rc, fs1, o, st'. do 4 (split; [done|]).
  assert (verification_fails fs1 (Some d') = false <->
          exists_ fs1 d' = true /\ verify_audio_ok fs1 d' = true) as Hvf.
  { unfold verification_fails. rewrite orb_false_iff, !negb_false_iff. done. }
  assert (forall fs' : gmap string node,
            fs' = remove_partial fs1 (Some d') ->
            (exists_ fs' d' = false \/
             (exists_ fs1 d' = true /\ os_remove fs1 d' = None /\ fs' = fs1)) /\
            (exists_ (disk st) (src a) = true ->
               fs' !! str (src a) = disk st !! str (src a))) as Hclean.
  { intros fs' ->. split.
    - destruct (remove_partial_cases fs1 d') as [H|(H1 & H2 & H3)].
      + left. by apply exists_false.
      + right. split; [by apply exists_true | done].
    - intros Hsrc.
      assert (str (src a) <> str d') as Hne.
      { intros E. unfold exists_ in Hsrc, Hf. rewrite E in Hsrc.
        destruct (disk st !! str d'); done. }
      rewrite remove_partial_lookup_ne by done.
      pose proof (Hframe (removelast (cmd a) ++ [str d']) (disk st) (str (src a))) as H.
      rewrite Hrun in H. apply H. rewrite last_snoc. congruence. }
  assert (apply_loop ffmpeg false (a :: rest) st = apply_loop ffmpeg false rest st') as Hnext.
  { rewrite apply_loop_cons by apply Hok. by rewrite Hex, bind_Ok. }
  destruct Hcases as [(Hrc & -> & Hdisk & Hs & He)|[(-> & Hv & -> & Hdisk & Hs & He)|(-> & Hv & -> & Hdisk & Hs & He)]].
  - split; [done|]. split; [done|]. split; [done|]. split; [|done].
    intros _. destruct (Hclean _ Hdisk). by repeat split.
  - split; [done|]. split; [done|]. split; [done|]. split; [|done].
    intros _. destruct (Hclean _ Hdisk). by repeat split.
  - apply Hvf in Hv as [H1 H2]. split; [done|].
    split; [intros _ [H|H]; congruence|]. split; [done|]. split; [|done].
    intros [H|H]; discriminate H.
Qed.

Lemma failure_semantics_witness :
  planned_ok convert_track /\ writes_only_output encoder_fails /\
  exists o st',
    execute_action encoder_fails false convert_track (idle library) = Ok (o, st') /\
    apply_loop encoder_fails false [convert_track; convert_track] (idle library)
      = apply_loop encoder_fails false [convert_track] st'.
Proof.
  split; [apply convert_track_planned|]. split; [apply writes_only_its_output|].
  destruct (failure_semantics encoder_fails convert_track [convert_track] (idle library)
              convert_track_planned (writes_only_its_output stub 1))
    as (d' & rc & fs1 & o & st' & H1 & _ & _ & _ & _ & _ & _ & _ & H9).
  by exists o, st'.
Defined.

(** A failed transcode: Error, partial output removed, source kept, and
    the batch goes on to count a second error. *)
Example failed_transcode_scenario :
  exists st,
    apply_actions encoder_fails library [convert_track; convert_track] log_apply false = Ok st /\
    row_outcome <$> log st = [Error; Error] /\ error st = 2 /\ success st = 0 /\
    disk st !! "/lib/track (2).flac" = None /\
    disk st !! "/lib/track.m4a" = library !! "/lib/track.m4a".
Proof.
  eexists. split; [vm_compute; reflexivity|]. repeat split; vm_compute; reflexivity.
Qed.

(** C2, as stated, fails when the partial output cannot be removed: the
    outcome is Error and the partial output is still at the destination
    when the action concludes. *)
Lemma partial_output_survives_failed_removal :
  planned_ok convert_track /\ writes_only_output encoder_fails_locked /\
  exists st',
    execute_action encoder_fails_locked false convert_track (idle library)
      = Ok (Error, st') /\
    exists_ (disk st') (parse "/lib/track (2).flac") = true /\
    ~ exists_ (disk st') (parse "/lib/track (2).flac") = false.
Proof.
  split; [apply convert_track_planned|]. split; [apply writes_only_its_output|].
  eexists. split; [vm_compute; reflexivity|].
  split; [vm_compute; reflexivity|]. vm_compute. discriminate.
Qed.


(** ** Report extractor and the extension of resolved files *)

(** C10, as the code has it.  Every candidate the extractor yields ends,
    in lower case, with one of [.flac], [.m4a], [.mp4].  Hence the name of the
    file it resolves to ends with one of them as well; the extension pathlib
    reads from that name is in the recognized set unless the name is nothing
    but the extension (a file called [.m4a] has the empty extension), and the
    skipped-unsupported row is written exactly for such names. *)
Theorem candidate_extension (realpath : Path -> Path) (fs : gmap string node)
    (rt : Path) (df : DataFrame) (c : string) :
  c ∈ extract_candidate_paths df ->
  (exists ext, ext ∈ MUSIC_EXTS /\ endswith (lower c) ext = true) /\
  forall p, resolve_candidate realpath fs rt c = Some p ->
    (exists ext, ext ∈ MUSIC_EXTS /\ endswith (lower (name p)) ext = true) /\
    (mem (lower (suffix p)) MUSIC_EXTS = false <->
     mem (lower (name p)) MUSIC_EXTS = true) /\
    ((exists acts, plan_candidate realpath fs rt c =
        Ok ({| raw_text := c; resolved_path := Some p; status := SKIP (suffix p) |}, acts))
     <-> mem (lower (name p)) MUSIC_EXTS = true).
Proof.
  intros (ext & Hext & Hc)%candidate_ext. split; [by exists ext|].
  intros p Hres.
  destruct (candidate_name c ext Hext Hc) as (_ & Hn & Hz).
  rewrite <- (resolve_candidate_name realpath fs rt c p Hn Hres) in Hz.
  pose proof (music_name_suffix (name p) ext Hext Hz) as Hiff.
  split; [by exists ext|]. split; [exact Hiff|].
  rewrite <- Hiff. unfold plan_candidate. rewrite Hres. fold (suffix p).
  destruct (mem (lower (suffix p)) MUSIC_EXTS); cbn [negb]; split.
  - intros [acts H].
    destruct (decide_actions_for_path fs p) as [[|a l]| |]; discriminate H.
  - done.
  - done.
  - intros _. by exists [].
Qed.

Lemma candidate_extension_witness :
  "Music/track.m4a" ∈ extract_candidate_paths sheet /\
  exists ext, ext ∈ MUSIC_EXTS /\ endswith (lower "Music/track.m4a") ext = true.
Proof.
  assert ("Music/track.m4a" ∈ extract_candidate_paths sheet) as H.
  { vm_compute. by left. }
  split; [exact H|].
  exact (proj1 (candidate_extension same_path library (parse "/lib") sheet _ H)).
Defined.

(** C10, as stated, fails on a file whose name is only the extension: the
    candidate [a/.m4a] ends with [.m4a], resolves to a file, and that file
    has the empty extension, so the row is skipped as unsupported. *)
Lemma bare_extension_is_skipped :
  "a/.m4a" ∈ extract_candidate_paths sheet_dotfile /\
  endswith (lower "a/.m4a") ".m4a" = true /\
  resolve_candidate same_path library_dotfile (parse "/lib") "a/.m4a"
    = Some (parse "/lib/a/.m4a") /\
  mem (lower (suffix (parse "/lib/a/.m4a"))) MUSIC_EXTS = false /\
  plan_from_xlsx same_path library_dotfile [sheet_dotfile] (parse "/lib")
    = Ok ([ {| raw_text := "a/.m4a"; resolved_path := Some (parse "/lib/a/.m4a");
               status := SKIP "" |} ], []).
Proof.
  split; [vm_compute; by left|]. split; [reflexivity|]. split; [reflexivity|].
  split; [reflexivity|]. vm_compute. reflexivity.
Qed.

(** * Further properties of the script *)

#[local] Set Warnings "-clear-no-such-hyp".

Module DedupFacts.

Lemma unique_in_order_spec (seen : gset string) (l : list string) :
  NoDup (unique_in_order seen l) /\
  (forall c, c ∈ unique_in_order seen l <-> c ∈ l /\ c ∉ seen) /\
  sublist (unique_in_order seen l) l.
Proof.
  revert seen. induction l as [|p r IH]; intros seen; simpl.
  { split; [constructor|]. split; [|constructor]. intros c. set_solver. }
  destruct (IH seen) as (Hn & Hm & Hs).
  destruct (IH ({[p]} ∪ seen)) as (Hn' & Hm' & Hs').
  case_bool_decide as Hp.
  - split; [done|]. split; [|by constructor].
    intros c. rewrite Hm, elem_of_cons. split; [by intros [? ?]; auto|].
    intros [[->|H] Hc]; done.
  - split; [|split].
    + constructor; [|done]. rewrite Hm'. intros [_ H]. apply H.
      apply elem_of_union_l. by apply elem_of_singleton.
    + intros c. rewrite elem_of_cons, Hm'.
      destruct (decide (c = p)) as [->|]; set_solver.
    + by constructor.
Qed.

Lemma unique_in_order_app (seen : gset string) (l1 l2 : list string) :
  unique_in_order seen (l1 ++ l2) =
  unique_in_order seen l1 ++ unique_in_order (list_to_set l1 ∪ seen) l2.
Proof.
  revert seen. induction l1 as [|p r IH]; intros seen; simpl.
  { f_equal. set_solver. }
  case_bool_decide as Hp.
  - rewrite IH. do 2 f_equal. set_solver.
  - rewrite IH. simpl. do 3 f_equal. set_solver.
Qed.

(** Removing duplicates neither adds nor loses a member. *)
Lemma extract_candidate_elem (df : DataFrame) (c : string) :
  c ∈ extract_candidate_paths df <-> c ∈ gathered_paths df.
Proof.
  change (extract_candidate_paths df) with (unique_in_order ∅ (gathered_paths df)).
  destruct (unique_in_order_spec ∅ (gathered_paths df)) as (_ & Hm & _).
  rewrite Hm. set_solver.
Qed.

End DedupFacts.

Import DedupFacts.

(** X1.  [extract_candidate_paths] returns no text twice, returns exactly
    the texts it gathered, in the order of their first occurrence, and
    what it returns for a longer gathering extends what it returns for a
    shorter one. *)
Theorem candidates_deduplicated (df : DataFrame) :
  NoDup (extract_candidate_paths df) /\
  (forall c, c ∈ extract_candidate_paths df <-> c ∈ gathered_paths df) /\
  sublist (extract_candidate_paths df) (gathered_paths df) /\
  (forall l1 l2, gathered_paths df = l1 ++ l2 ->
     unique_in_order ∅ l1 `prefix_of` extract_candidate_paths df).
Proof.
  assert (extract_candidate_paths df = unique_in_order ∅ (gathered_paths df)) as E
    by reflexivity.
  destruct (unique_in_order_spec ∅ (gathered_paths df)) as (Hn & Hm & Hs).
  rewrite E. split; [done|]. split; [|split; [done|]].
  - intros c. rewrite Hm. set_solver.
  - intros l1 l2 ->. rewrite unique_in_order_app. by eexists.
Qed.



Lemma from_columns_elem (df : DataFrame) (c : string) :
  c ∈ List.flat_map
        (fun j => strip <$> List.filter looks_like_path (column_values df j))
        (find_path_columns df) <->
  exists j v, j ∈ find_path_columns df /\ v ∈ column_values df j /\
              looks_like_path v = true /\ c = strip v.
Proof.
  rewrite list_elem_of_In, in_flat_map. split.
  - intros (j & Hj & Hc). apply list_elem_of_In, list_elem_of_fmap in Hc as (v & -> & Hv).
    apply list_elem_of_In, filter_In in Hv as [Hin Hv].
    exists j, v. split; [by apply list_elem_of_In|].
    split; [by apply list_elem_of_In | done].
  - intros (j & v & Hj & Hv & Hl & ->). exists j. split; [by apply list_elem_of_In|].
    apply list_elem_of_In, list_elem_of_fmap. exists v. split; [done|].
    apply list_elem_of_In, filter_In. split; [by apply list_elem_of_In | done].
Qed.

(** X3.  When a path-like column holds a cell that looks like a path, the
    candidates of [extract_candidate_paths] are exactly the stripped cells of
    the path-like columns that look like a path, and the other columns are
    not read; when no such cell exists, the candidates are the stripped
    cells of the whole sheet that look like a path after stripping. *)
Theorem candidates_prefer_path_columns (df : DataFrame) :
  ((exists j v, j ∈ find_path_columns df /\ v ∈ column_values df j /\
                looks_like_path v = true) ->
   forall c, c ∈ extract_candidate_paths df <->
     exists j v, j ∈ find_path_columns df /\ v ∈ column_values df j /\
                 looks_like_path v = true /\ c = strip v) /\
  ((forall j v, j ∈ find_path_columns df -> v ∈ column_values df j ->
                looks_like_path v = false) ->
   forall c, c ∈ extract_candidate_paths df <->
     exists v, v ∈ all_values df /\ looks_like_path (strip v) = true /\
               c = strip v /\ 5 <= String.length c).
Proof.
  split.
  - intros (j & v & Hj & Hv & Hl) c.
    rewrite extract_candidate_elem.
    rewrite <- from_columns_elem. unfold gathered_paths. cbv zeta.
    destruct (List.flat_map _ _) as [|x l] eqn:E; [|done].
    assert (strip v ∈ @nil string) as H; [|by apply elem_of_nil in H].
    rewrite <- E. apply from_columns_elem. by exists j, v.
  - intros Hnone c.
    rewrite extract_candidate_elem.
    unfold gathered_paths. cbv zeta.
    destruct (List.flat_map _ _) as [|x l] eqn:E.
    + rewrite list_elem_of_In, filter_In. split.
      * intros [Hin Hc]. apply list_elem_of_In, list_elem_of_fmap in Hin as (v & -> & Hv).
        exists v. split; [done|]. split; [done|]. split; [done|].
        unfold looks_like_path in Hc.
        destruct (Nat.ltb_spec (String.length (strip v)) 5); [done | lia].
      * intros (v & Hv & Hl & -> & _). split; [|done].
        apply list_elem_of_In, list_elem_of_fmap. by exists v.
    + exfalso. assert (x ∈ x :: l) as H by by left.
      rewrite <- E in H. apply from_columns_elem in H as (j & v & Hj & Hv & Hl & _).
      by rewrite (Hnone j v Hj Hv) in Hl.
Qed.

Module ContainsFacts.

Lemma startswith_iff (s k : string) :
  startswith s k = true <-> exists y, s = k +:+ y.
Proof.
  revert s. induction k as [|a k IH]; intros s.
  - split; [|by destruct s]. intros _. by exists s.
  - destruct s as [|b s]; simpl.
    + split; [done|]. intros [y H]. by rewrite sapp_cons in H.
    + rewrite andb_true_iff, IH. split.
      * intros [Hab [y ->]]. apply Ascii.eqb_eq in Hab as ->. by exists y.
      * intros [y H]. rewrite sapp_cons in H. injection H as -> ->.
        split; [apply Ascii.eqb_refl | by exists y].
Qed.

Lemma contains_nil (k : string) : contains k "" = startswith "" k.
Proof.
  change (contains k "") with (if startswith "" k then true else false).
  by destruct (startswith "" k).
Qed.

Lemma contains_cons (k : string) (c : ascii) (s : string) :
  contains k (String c s) = startswith (String c s) k || contains k s.
Proof.
  change (contains k (String c s))
    with (if startswith (String c s) k then true else contains k s).
  by destruct (startswith (String c s) k).
Qed.

Lemma contains_iff (k s : string) :
  contains k s = true <-> exists x y, s = x +:+ k +:+ y.
Proof.
  induction s as [|c s IH].
  - rewrite contains_nil, startswith_iff. split.
    + intros [y E]. by exists "", y.
    + intros (x & y & H). destruct x as [|? x]; [by exists y|].
      by rewrite sapp_cons in H.
  - rewrite contains_cons, orb_true_iff, startswith_iff, IH. split.
    + intros [[y E]|(x & y & ->)]; [by exists "", y | by exists (String c x), y].
    + intros (x & y & H). destruct x as [|? x]; [left; by exists y|].
      right. rewrite sapp_cons in H. injection H as -> ->. by exists x, y.
Qed.

Lemma contains_trans (a b s : string) :
  contains a b = true -> contains b s = true -> contains a s = true.
Proof.
  intros (x & y & ->)%contains_iff (x' & y' & ->)%contains_iff.
  apply contains_iff. exists (x' +:+ x), (y +:+ y').
  by rewrite !sapp_assoc.
Qed.

End ContainsFacts.

Import ContainsFacts.

(** X4.  [find_path_columns] selects a column exactly when its label,
    stripped and lower-cased, contains one of [path], [file], [location],
    [source], [url]: the four other keywords of [PATHLIKE_COL_KEYWORDS]
    select nothing more.  White space around the label does not matter. *)
Theorem path_column_keywords (c : string) :
  is_path_column c =
    existsb (fun k => contains k (lower (strip c)))
            ["path"; "file"; "location"; "source"; "url"] /\
  is_path_column (strip c) = is_path_column c /\
  (is_path_column c = true <->
   exists k x y, k ∈ ["path"; "file"; "location"; "source"; "url"] /\
                 lower (strip c) = x +:+ k +:+ y).
Proof.
  assert (is_path_column c =
          existsb (fun k => contains k (lower (strip c)))
                  ["path"; "file"; "location"; "source"; "url"]) as E.
  { unfold is_path_column, PATHLIKE_COL_KEYWORDS. cbv zeta. simpl existsb.
    set (lc := lower (strip c)).
    pose proof (contains_trans "file" "filename" lc eq_refl) as H1.
    pose proof (contains_trans "file" "track file" lc eq_refl) as H2.
    pose proof (contains_trans "file" "file path" lc eq_refl) as H3.
    pose proof (contains_trans "path" "fullpath" lc eq_refl) as H4.
    destruct (contains "path" lc), (contains "file" lc), (contains "location" lc),
      (contains "source" lc), (contains "url" lc); simpl; try done;
      destruct (contains "filename" lc), (contains "track file" lc),
        (contains "file path" lc), (contains "fullpath" lc); simpl; try done;
      try (by specialize (H1 eq_refl)); try (by specialize (H2 eq_refl));
      try (by specialize (H3 eq_refl)); try (by specialize (H4 eq_refl)). }
  split; [exact E|]. split.
  - unfold is_path_column. cbv zeta. by rewrite strip_idemp.
  - rewrite E, existsb_exists. split.
    + intros (k & Hk & (x & y & H)%contains_iff). exists k, x, y.
      split; [by apply list_elem_of_In | done].
    + intros (k & x & y & Hk & H). exists k. split; [by apply list_elem_of_In|].
      apply contains_iff. by exists x, y.
Qed.

Module RowFacts.


Section Rows.
Variable realpath : Path -> Path.
Implicit Types (fs : gmap string node) (rt : Path) (raw : string).



End Rows.

End RowFacts.

Import RowFacts.





Module ExtensionFacts.










End ExtensionFacts.

Import ExtensionFacts.



Module OriginFacts.




Section Origin.
Variable realpath : Path -> Path.



End Origin.

End OriginFacts.

Import OriginFacts.




Import MoreFixtures.

Module BatchFacts.

Section Batch.
Variable ffmpeg : list string -> gmap string node -> Z * gmap string node.

(** Actions of an unknown kind are passed over. *)
Lemma apply_loop_filter (preview : bool) (actions : list Action) (st : state) :
  apply_loop ffmpeg preview actions st =
  apply_loop ffmpeg preview (List.filter (fun a => is_known_kind (kind a)) actions) st.
Proof.
  revert st. induction actions as [|a rest IH]; intros st; [done|]. simpl.
  destruct (is_known_kind (kind a)) eqn:Hk; simpl; [|apply IH]. rewrite Hk. simpl.
  destruct (execute_action ffmpeg preview a st) as [[o st']| |]; simpl; [|done..].
  apply IH.
Qed.

(** The trace of the loop in Apply mode: one step per action, each with
    its row and its launch. *)
Lemma apply_loop_trace (actions : list Action) (st : state) :
  Forall planned_ok actions ->
  exists st' (steps : list (log_row * (list string * gmap string node))),
    apply_loop ffmpeg false actions st = Ok st' /\
    log st' = log st ++ steps.*1 /\
    launches st' = launches st ++ steps.*2 /\
    length steps = length actions /\
    Forall (fun s => last s.2.1 = Some (row_destination s.1) /\
                     row_outcome s.1 <> Preview) steps /\
    success st' + error st' = success st + error st + length actions.
Proof.
  intros H. revert st. induction H as [|a rest Ha Hrest IH]; intros st.
  { exists st, []. simpl. rewrite !app_nil_r. repeat split; [constructor | lia]. }
  destruct (execute_apply ffmpeg a st Ha)
    as (d & d' & rc & fs1 & o & st1 & Hd & Hu & Hf & Hrun & Hex & Hl & Hlog & Hcases).
  destruct (IH st1) as (st' & steps & Hloop & Hrows & Hls & Hlen & Hall & Hcount).
  exists st', ((mk_row a (Some d') o, (removelast (cmd a) ++ [str d'], disk st)) :: steps).
  rewrite apply_loop_cons by apply Ha. rewrite Hex, bind_Ok. simpl.
  split; [done|]. split; [by rewrite Hrows, Hlog, <- app_assoc|].
  split; [by rewrite Hls, Hl, <- app_assoc|]. split; [by rewrite Hlen|]. split.
  - constructor; [|done]. simpl. split; [apply last_snoc|].
    by destruct Hcases as [(_ & -> & _)|[(_ & _ & -> & _)|(_ & _ & -> & _)]].
  - destruct Hcases as [(_ & _ & _ & Hs & He)|[(_ & _ & _ & _ & Hs & He)|(_ & _ & _ & _ & Hs & He)]];
      lia.
Qed.

(** One round leaves every entry alone but its output and its source. *)
Lemma execute_apply_frame (a : Action) (st : state) :
  planned_ok a -> writes_only_output ffmpeg ->
  exists o st' l,
    execute_action ffmpeg false a st = Ok (o, st') /\
    launches st' = launches st ++ [l] /\
    forall k, k <> str (src a) -> last l.1 <> Some k -> disk st' !! k = disk st !! k.
Proof.
  intros Hok Hframe.
  destruct (execute_apply ffmpeg a st Hok)
    as (d & d' & rc & fs1 & o & st' & Hd & Hu & Hf & Hrun & Hex & Hl & Hlog & Hcases).
  exists o, st', (removelast (cmd a) ++ [str d'], disk st).
  split; [done|]. split; [done|]. simpl. rewrite last_snoc. intros k Hsrc Hout.
  assert (k <> str d') as Hne by congruence.
  assert (fs1 !! k = disk st !! k) as Hkeep.
  { pose proof (Hframe (removelast (cmd a) ++ [str d']) (disk st) k) as H.
    rewrite Hrun in H. apply H. by rewrite last_snoc. }
  destruct Hcases as [(_ & _ & -> & _)|[(_ & _ & _ & -> & _)|(_ & _ & _ & -> & _)]].
  - by rewrite remove_partial_lookup_ne.
  - by rewrite remove_partial_lookup_ne.
  - by rewrite safe_remove_lookup_ne.
Qed.

Lemma apply_loop_frame (actions : list Action) (st : state) :
  Forall planned_ok actions -> writes_only_output ffmpeg ->
  exists st' ls,
    apply_loop ffmpeg false actions st = Ok st' /\
    launches st' = launches st ++ ls /\
    forall k, (forall a, a ∈ actions -> k <> str (src a)) ->
              (forall l, l ∈ ls -> last l.1 <> Some k) ->
              disk st' !! k = disk st !! k.
Proof.
  intros H Hframe. revert st. induction H as [|a rest Ha Hrest IH]; intros st.
  { exists st, []. by rewrite app_nil_r. }
  destruct (execute_apply_frame a st Ha Hframe) as (o & st1 & l & Hex & Hl & Hk).
  destruct (IH st1) as (st' & ls & Hloop & Hls & Hks).
  exists st', (l :: ls). rewrite apply_loop_cons by apply Ha. rewrite Hex, bind_Ok. simpl.
  split; [done|]. split; [by rewrite Hls, Hl, <- app_assoc|].
  intros k Hsrc Hout. rewrite Hks.
  - apply Hk; [apply Hsrc; by left | apply Hout; by left].
  - intros a' Ha'. apply Hsrc. by right.
  - intros l' Hl'. apply Hout. by right.
Qed.

End Batch.

End BatchFacts.

Import BatchFacts.

(** X10.  [apply_actions] passes over the actions whose kind is neither
    [convert_m4a] nor [repair_flac]: the run is the run on the list without
    them, and a list of such actions only creates the log file. *)
Theorem unknown_kinds_are_skipped
    (ffmpeg : list string -> gmap string node -> Z * gmap string node)
    (fs : gmap string node) (actions : list Action) (log_csv : Path) (preview : bool) :
  apply_actions ffmpeg fs actions log_csv preview =
    apply_actions ffmpeg fs (List.filter (fun a => is_known_kind (kind a)) actions)
      log_csv preview /\
  (Forall (fun a => is_known_kind (kind a) = false) actions ->
   apply_actions ffmpeg fs actions log_csv preview =
     Ok {| disk := <[str log_csv := log_file]> fs; success := 0; error := 0;
           log := []; launches := [] |}).
Proof.
  split; [apply apply_loop_filter|].
  intros H. unfold apply_actions. rewrite apply_loop_filter.
  replace (List.filter (fun a => is_known_kind (kind a)) actions) with (@nil Action); [done|].
  induction H as [|a l Ha _ IH]; [done|]. simpl. by rewrite Ha.
Qed.

(** X11.  In Apply mode, on actions of the planner's shape, [apply_actions]
    returns; the two counters add up to the number of actions; there is one
    log row and one launch of the transcoder per action, no row says
    [PREVIEW], and the destination written in a row is the last argument of
    the matching launch. *)
Theorem apply_counts_every_action
    (ffmpeg : list string -> gmap string node -> Z * gmap string node)
    (fs : gmap string node) (actions : list Action) (log_csv : Path) :
  Forall planned_ok actions ->
  exists st, apply_actions ffmpeg fs actions log_csv false = Ok st /\
    success st + error st = length actions /\
    length (log st) = length actions /\
    length (launches st) = length actions /\
    Forall (fun r => row_outcome r <> Preview) (log st) /\
    Forall2 (fun r l => last l.1 = Some (row_destination r)) (log st) (launches st).
Proof.
  intros Hok. unfold apply_actions.
  destruct (apply_loop_trace ffmpeg actions
              {| disk := <[str log_csv := log_file]> fs; success := 0; error := 0;
                 log := []; launches := [] |} Hok)
    as (st & steps & Hst & Hlog & Hl & Hlen & Hall & Hcount).
  simpl in *. exists st. split; [done|]. split; [lia|].
  rewrite Hlog, Hl, !length_fmap. split; [done|]. split; [done|]. split.
  - apply Forall_fmap. eapply Forall_impl; [exact Hall|]. by intros s [_ H].
  - apply Forall2_fmap, Forall_Forall2_diag.
    eapply Forall_impl; [exact Hall|]. by intros s [H _].
Qed.

Lemma apply_counts_every_action_witness :
  Forall planned_ok [convert_track; convert_track] /\
  exists st, apply_actions encoder_fails library [convert_track; convert_track] log_apply false
               = Ok st /\
    success st + error st = length [convert_track; convert_track].
Proof.
  assert (Forall planned_ok [convert_track; convert_track]) as H.
  { repeat constructor; by exists (parse "/lib/track (2).flac"). }
  split; [exact H|].
  destruct (apply_counts_every_action encoder_fails library _ log_apply H)
    as (st & H1 & H2 & _).
  by exists st.
Defined.

(** X12.  In Apply mode, with a transcoder that writes only its output
    file, [apply_actions] leaves every entry of the disk as it was, except
    the log file, the sources of the actions and the output files of the
    launches. *)
Theorem apply_touches_only_its_files
    (ffmpeg : list string -> gmap string node -> Z * gmap string node)
    (fs : gmap string node) (actions : list Action) (log_csv : Path) :
  Forall planned_ok actions -> writes_only_output ffmpeg ->
  exists st, apply_actions ffmpeg fs actions log_csv false = Ok st /\
    forall k, k <> str log_csv ->
      (forall a, a ∈ actions -> k <> str (src a)) ->
      (forall l, l ∈ launches st -> last l.1 <> Some k) ->
      disk st !! k = fs !! k.
Proof.
  intros Hok Hframe. unfold apply_actions.
  destruct (apply_loop_frame ffmpeg actions
              {| disk := <[str log_csv := log_file]> fs; success := 0; error := 0;
                 log := []; launches := [] |} Hok Hframe)
    as (st & ls & Hst & Hl & Hk).
  simpl in *. subst ls. exists st. split; [done|].
  intros k Hlog Hsrc Hout. rewrite Hk by done. by apply lookup_insert_ne.
Qed.

Lemma apply_touches_only_its_files_witness :
  Forall planned_ok [convert_track] /\ writes_only_output encoder_ok /\
  exists st, apply_actions encoder_ok library [convert_track] log_apply false = Ok st /\
    disk st !! "/lib/old.flac" = library !! "/lib/old.flac".
Proof.
  assert (Forall planned_ok [convert_track]) as H.
  { repeat constructor. by exists (parse "/lib/track (2).flac"). }
  split; [exact H|]. split; [apply writes_only_its_output|].
  destruct (apply_touches_only_its_files encoder_ok library [convert_track] log_apply
              H (writes_only_its_output good_audio 0)) as (st & H1 & H2).
  exists st. split; [done|]. apply H2.
  - done.
  - intros a ->%list_elem_of_singleton. done.
  - intros l Hl. revert H1 Hl. vm_compute. intros [= <-].
    intros ->%list_elem_of_singleton. done.
Defined.

(** X13.  An action without a destination: Preview writes a row with an
    empty destination; Apply runs the command as given and always counts an
    error ([ERROR] on a non-zero exit code, [ERROR: verify] otherwise),
    with an empty destination in the row; nothing is removed, neither the
    source nor what the command wrote. *)
Theorem action_without_destination_fails
    (ffmpeg : list string -> gmap string node -> Z * gmap string node)
    (a : Action) (st : state) :
  dst a = None ->
  execute_action ffmpeg true a st =
    Ok (Preview,
        {| disk := disk st; success := success st; error := error st;
           log := log st ++ [mk_row a None Preview]; launches := launches st |}) /\
  exists o st',
    execute_action ffmpeg false a st = Ok (o, st') /\
    o = (if ((ffmpeg (cmd a) (disk st)).1 =? 0)%Z then ErrorVerify else Error) /\
    disk st' = (ffmpeg (cmd a) (disk st)).2 /\
    success st' = success st /\ error st' = S (error st) /\
    log st' = log st ++ [mk_row a None o] /\
    row_destination (mk_row a None o) = "" /\
    launches st' = launches st ++ [(cmd a, disk st)].
Proof.
  intros Hd. unfold execute_action, final_destination, final_cmd, run_ffmpeg_with_progress.
  rewrite Hd, !bind_Ok. split; [done|].
  destruct (ffmpeg (cmd a) (disk st)) as [rc fs1]. simpl.
  destruct (rc =? 0)%Z; simpl; eexists _, _; by repeat split.
Qed.

Lemma action_without_destination_fails_witness :
  dst orphan_action = None /\
  exists o st',
    execute_action encoder_ok false orphan_action (idle library) = Ok (o, st') /\
    error st' = 1 /\ success st' = 0 /\
    is_Some (disk st' !! "/lib/track.m4a").
Proof.
  split; [done|].
  destruct (action_without_destination_fails encoder_ok orphan_action (idle library) eq_refl)
    as (_ & o & st' & H1 & H2 & H3 & H4 & H5 & _).
  exists o, st'. split; [done|]. split; [by rewrite H5|]. split; [by rewrite H4|].
  rewrite H3. vm_compute. eauto.
Defined.

(** X14.  An action of a known kind with a destination and an empty
    command makes [apply_actions] raise [IndexError] in Apply mode when its
    turn comes, so that the actions after it are not run; in Preview mode
    the row is written and the loop goes on. *)
Theorem empty_command_stops_the_batch
    (ffmpeg : list string -> gmap string node -> Z * gmap string node)
    (a : Action) (rest : list Action) (st : state) (d : Path) :
  is_known_kind (kind a) = true -> dst a = Some d -> has_name d = true ->
  cmd a = [] ->
  apply_loop ffmpeg false (a :: rest) st = Raise IndexError /\
  exists d', unique_target_path (disk st) d = Ok d' /\
    apply_loop ffmpeg true (a :: rest) st =
      apply_loop ffmpeg true rest
        {| disk := disk st; success := success st; error := error st;
           log := log st ++ [mk_row a (Some d') Preview]; launches := launches st |}.
Proof.
  intros Hk Hd Hn Hc.
  destruct (unique_target_path_total (disk st) d) as (d' & Hu & _); [done|].
  rewrite !apply_loop_cons by done.
  unfold execute_action, final_destination, final_cmd. rewrite Hd, Hu, !bind_Ok, Hc.
  split; [done|]. by exists d'.
Qed.

Lemma empty_command_stops_the_batch_witness :
  is_known_kind (kind empty_cmd_action) = true /\
  apply_loop encoder_ok false [empty_cmd_action; convert_track] (idle library)
    = Raise IndexError.
Proof.
  split; [done|].
  exact (proj1 (empty_command_stops_the_batch encoder_ok empty_cmd_action [convert_track]
                  (idle library) (parse "/lib/track (2).flac")
                  eq_refl eq_refl eq_refl eq_refl)).
Defined.



(** X16.  The test [not dst.exists() or not verify_audio_ok(dst)] of
    [apply_actions] is the negation of [verify_audio_ok] alone.
    [verify_audio_ok] holds exactly of a regular file whose probe has a
    duration above 0.5 and an audio stream; for such a file
    [file_duration_sec] returns that duration. *)
Theorem verification_reads_the_probe (fs : gmap string node) (p : Path) :
  verification_fails fs (Some p) = negb (verify_audio_ok fs p) /\
  (verify_audio_ok fs p = true <->
   exists c f l, fs !! str p = Some (File c) /\
     probe c = Some {| format := Some (DurFloat f); streams := Some l |} /\
     PrimFloat.ltb 0.5%float f = true /\
     existsb is_audio l = true) /\
  (verify_audio_ok fs p = true ->
   is_file fs p = true /\
   exists f, file_duration_sec fs p = Some f /\ PrimFloat.ltb 0.5%float f = true).
Proof.
  assert (verify_audio_ok fs p = true <->
   exists c f l, fs !! str p = Some (File c) /\
     probe c = Some {| format := Some (DurFloat f); streams := Some l |} /\
     PrimFloat.ltb 0.5%float f = true /\
     existsb is_audio l = true) as Hiff.
  { unfold verify_audio_ok, ffprobe_json, has_audio_stream, duration_of, info_truthy.
    split.
    - destruct (fs !! str p) as [[|c]|]; [done| |done].
      destruct (probe c) as [[fmt ss]|] eqn:Hp; [|done]. simpl.
      destruct ss as [l|]; simpl; [|by destruct fmt].
      destruct fmt as [[| |f]|]; simpl; rewrite ?andb_false_r; try done.
      intros [H1 H2]%andb_true_iff. by exists c, f, l.
    - intros (c & f & l & -> & -> & Hf & Hl). simpl. by rewrite Hl, Hf. }
  split; [|split; [exact Hiff|]].
  - unfold verification_fails. destruct (exists_ fs p) eqn:E; [done|]. simpl.
    apply exists_false in E. unfold verify_audio_ok, ffprobe_json. by rewrite E.
  - intros (c & f & l & Hc & Hp & Hf & Hl)%Hiff.
    unfold is_file, file_duration_sec, ffprobe_json. rewrite Hc, Hp. simpl.
    split; [done|]. unfold float_truthy.
    destruct (PrimFloat.eqb f 0) eqn:E; [|by exists f].
    exfalso. revert Hf E. rewrite FloatAxioms.ltb_spec, FloatAxioms.eqb_spec.
    unfold SFltb, SFeqb.
    change (Prim2SF 0.5) with (S754_finite false 4503599627370496 (-53)).
    change (Prim2SF 0) with (S754_zero false).
    destruct (Prim2SF f) as [[]|[]| |[] m e]; simpl; try done.
Qed.

(** X17.  [safe_remove] never raises and is idempotent; it touches no entry
    but the one of its path and adds none; afterwards the path is absent
    exactly when it was absent or a removable file; a directory stays. *)
Theorem safe_remove_spec (fs : gmap string node) (p : Path) :
  safe_remove (safe_remove fs p) p = safe_remove fs p /\
  (forall k, k <> str p -> safe_remove fs p !! k = fs !! k) /\
  (forall k, is_Some (safe_remove fs p !! k) -> is_Some (fs !! k)) /\
  (safe_remove fs p !! str p = None <->
   fs !! str p = None \/ exists c, fs !! str p = Some (File c) /\ locked c = false) /\
  (is_dir fs p = true -> safe_remove fs p = fs).
Proof.
  assert (forall k, k <> str p -> safe_remove fs p !! k = fs !! k) as Hne.
  { intros k Hk. by apply safe_remove_lookup_ne. }
  destruct (safe_remove_cases fs p) as [[Hr Hs]|[Hr Hs]].
  - assert (exists c, fs !! str p = Some (File c) /\ locked c = false) as (c & Hc & Hl).
    { revert Hr. unfold os_remove. destruct (fs !! str p) as [[|c]|]; [done| |done].
      destruct (locked c) eqn:L; [done|]. by exists c. }
    split.
    { unfold safe_remove at 1. unfold os_remove. rewrite Hs, lookup_delete_eq. done. }
    split; [exact Hne|]. split.
    { intros k. rewrite Hs. destruct (decide (k = str p)) as [->|Hk].
      - rewrite lookup_delete_eq. by intros [? ?].
      - by rewrite lookup_delete_ne. }
    split.
    { rewrite Hs, lookup_delete_eq. split; [|done]. intros _. right. by exists c. }
    unfold is_dir. by rewrite Hc.
  - rewrite !Hs. split; [done|]. split; [done|]. split; [done|]. split; [|done].
    revert Hr. unfold os_remove. destruct (fs !! str p) as [[|c]|] eqn:E.
    + intros _. split; [done|]. intros [|(c & ? & _)]; done.
    + destruct (locked c) eqn:L; [|done]. intros _. split; [done|].
      intros [|(c' & [= <-] & ?)]; congruence.
    + intros _. split; [by left | done].
Qed.

Module PrefixFacts.

Lemma is_prefix_of_iff (l k : list string) :
  is_prefix_of l k = true <-> exists m, k = l ++ m.
Proof.
  revert k. induction l as [|x l IH]; intros k; simpl.
  - split; [by exists k | done].
  - destruct k as [|y k].
    + split; [done | by intros (m & ?)].
    + rewrite andb_true_iff, String.eqb_eq, IH. split.
      * intros (-> & m & ->). by exists m.
      * intros (m & [= -> ->]). split; [done | by exists m].
Qed.

Lemma is_prefix_of_refl (l : list string) : is_prefix_of l l = true.
Proof. apply is_prefix_of_iff. exists []. by rewrite app_nil_r. Qed.

Lemma is_prefix_of_trans (l k m : list string) :
  is_prefix_of l k = true -> is_prefix_of k m = true -> is_prefix_of l m = true.
Proof.
  rewrite !is_prefix_of_iff. intros (a & ->) (b & ->). exists (a ++ b).
  by rewrite app_assoc.
Qed.

Lemma is_prefix_of_antisym (l k : list string) :
  is_prefix_of l k = true -> is_prefix_of k l = true -> l = k.
Proof.
  rewrite !is_prefix_of_iff. intros (a & ->) (b & Hb).
  assert (length (l ++ a ++ b) = length l) as Hlen by (by rewrite app_assoc, <- Hb).
  rewrite !length_app in Hlen. destruct a; [by rewrite app_nil_r | simpl in Hlen; lia].
Qed.

Lemma relative_to_ok_iff (p q : Path) :
  relative_to_ok p q = true <-> root p = root q /\ exists m, names p = names q ++ m.
Proof.
  unfold relative_to_ok. by rewrite andb_true_iff, String.eqb_eq, is_prefix_of_iff.
Qed.

End PrefixFacts.

Import PrefixFacts.

(** X18.  [is_under] is reflexive and transitive, two paths under each
    other resolve to the same path, and [is_under child root] says that the
    resolved paths have the same root and that the components of the
    resolved [root] begin those of the resolved [child]. *)
Theorem is_under_preorder (realpath : Path -> Path) :
  (forall p, is_under realpath p p = true) /\
  (forall p q r, is_under realpath p q = true -> is_under realpath q r = true ->
                 is_under realpath p r = true) /\
  (forall p q, is_under realpath p q = true -> is_under realpath q p = true ->
               realpath p = realpath q) /\
  (forall p q, is_under realpath p q = true <->
     root (realpath p) = root (realpath q) /\
     exists m, names (realpath p) = names (realpath q) ++ m).
Proof.
  unfold is_under. split; [|split; [|split]].
  - intros p. apply relative_to_ok_iff. split; [done|]. exists []. by rewrite app_nil_r.
  - intros p q r. unfold relative_to_ok. rewrite !andb_true_iff, !String.eqb_eq.
    intros [-> H1] [-> H2]. split; [done|]. by apply (is_prefix_of_trans _ _ _ H2 H1).
  - intros p q. unfold relative_to_ok. rewrite !andb_true_iff, !String.eqb_eq.
    intros [Hr H1] [_ H2]. destruct (realpath p) as [rp np], (realpath q) as [rq nq].
    simpl in *. f_equal; [done|]. by apply is_prefix_of_antisym.
  - intros p q. apply relative_to_ok_iff.
Qed.

(** X19.  [normalize_to_root] appends a relative text to the root, so the
    result is lexically under the root, and [is_under] holds when
    [resolve] leaves both paths as they are; for a text of one component
    the fallback path [root / Path(raw).name] of [plan_from_xlsx] is the
    path already tried. *)
Theorem relative_candidate_is_joined (realpath : Path -> Path) (s : string) (rt : Path) :
  is_absolute (parse s) = false ->
  normalize_to_root s rt = mkPath (root rt) (names rt ++ names (parse s)) /\
  relative_to_ok (normalize_to_root s rt) rt = true /\
  (realpath (normalize_to_root s rt) = normalize_to_root s rt -> realpath rt = rt ->
   is_under realpath (normalize_to_root s rt) rt = true) /\
  (names (parse s) = [name (parse s)] ->
   joinpath rt (name (parse s)) = normalize_to_root s rt).
Proof.
  intros Habs.
  assert (normalize_to_root s rt = mkPath (root rt) (names rt ++ names (parse s))) as E.
  { unfold normalize_to_root, joinpath. cbv zeta. by rewrite Habs. }
  assert (relative_to_ok (normalize_to_root s rt) rt = true) as Hrel.
  { rewrite E. apply relative_to_ok_iff. split; [done|]. by exists (names (parse s)). }
  split; [exact E|]. split; [exact Hrel|]. split.
  - intros H1 H2. unfold is_under. by rewrite H1, H2.
  - intros Hone. rewrite E, Hone.
    assert (name (parse s) <> "") as Hne.
    { intros H0. apply (f_equal (fun l => l !! 0)) in Hone. simpl in Hone.
      assert (name (parse s) ∈ names (parse s)) as Hin
        by (by apply list_elem_of_lookup; exists 0).
      rewrite H0 in Hin. unfold parse in Hin; simpl in Hin.
      by apply list_elem_of_filter in Hin as [Hk _]. }
    destruct (parse_name_component s Hne) as [Hp Hk].
    by apply joinpath_component.
Qed.

Lemma relative_candidate_is_joined_witness :
  is_absolute (parse "sub/track.m4a") = false /\
  is_under same_path (normalize_to_root "sub/track.m4a" (parse "/lib")) (parse "/lib") = true.
Proof.
  split; [done|].
  destruct (relative_candidate_is_joined same_path "sub/track.m4a" (parse "/lib") eq_refl)
    as (_ & _ & H & _).
  by apply H.
Defined.

(** X20.  A percentage is shown by [run_ffmpeg_with_progress] only for a
    line with a time stamp and a source whose probed duration is positive;
    the value shown is 0, 100 or strictly between the two, whatever the time
    stamp. *)
Theorem progress_percent_is_clamped (fs : gmap string node) (src : Path)
    (cur : option float) (pct : float) :
  progress_percent fs src cur = Some pct ->
  (exists c d, cur = Some c /\ file_duration_sec fs src = Some d /\
     PrimFloat.ltb 0%float d = true /\
     pct = py_max 0%float (py_min 100%float (c / d * 100)%float)) /\
  (pct = 0%float \/ pct = 100%float \/
   (PrimFloat.ltb 0%float pct = true /\ PrimFloat.ltb pct 100%float = true)).
Proof.
  unfold progress_percent. destruct cur as [c|]; [|done]. cbv zeta.
  destruct (PrimFloat.ltb 0 (known_duration fs src)) eqn:Hd; [|done].
  intros [= <-]. split.
  - revert Hd. unfold known_duration.
    destruct (file_duration_sec fs src) as [d|]; [|by vm_compute].
    destruct (float_truthy d); [|by vm_compute]. intros Hd. by exists c, d.
  - set (x := (c / known_duration fs src * 100)%float). unfold py_max, py_min.
    destruct (PrimFloat.ltb x 100) eqn:H1.
    + destruct (PrimFloat.ltb 0 x) eqn:H2; auto.
    + right. left. reflexivity.
Qed.

Lemma progress_percent_is_clamped_witness :
  progress_percent library track_m4a (Some 6.25%float) = Some 50%float /\
  (50%float = 0%float \/ 50%float = 100%float \/
   (PrimFloat.ltb 0%float 50%float = true /\ PrimFloat.ltb 50%float 100%float = true)).
Proof.
  split; [by vm_compute|].
  exact (proj2 (progress_percent_is_clamped library track_m4a (Some 6.25%float) 50%float
                  eq_refl)).
Defined.
